(** * The chat hook [useChat] of src/lib/chat.ts over the chat tables

    A shallow embedding of the chat module: the three chat tables of the
    migration [20250326194407_azure_mud.sql] with their row-level-security
    policies and the unique index on room participants, the hook
    [useChat] of [src/lib/chat.ts] (room resolution, history load, realtime
    handlers, send, typing, read and delete), and the properties of the
    chat core that the specification states about them.

    Identifiers are uuids in the store and strings in the client; user ids
    are modelled as strings (the client sorts them as strings), row ids
    drawn by [gen_random_uuid()] as numbers taken from a counter, and
    timestamps as integers counting milliseconds. *)

From Stdlib Require Import Bool List ZArith String Lia Permutation Sorted.
Import ListNotations.
Local Open Scope string_scope.
Local Open Scope Z_scope.
Local Open Scope list_scope.

Set Implicit Arguments.

(** ** Rows *)

Definition UserId := string.
Definition RoomId := nat.
Definition MsgId := nat.
Definition Time := Z.

(** [chat_rooms]; the two timestamps [last_message_at] and [updated_at]
    are read by no operation of the hook and are left out. *)
Record ChatRoom := mkRoom {
  r_id : RoomId;
  r_participant1_id : UserId;
  r_participant2_id : UserId;
  r_created_at : Time
}.

(** [chat_messages]. The client builds its optimistic entry as a
    [Partial<ChatMessage>] without id, so [m_id] is optional; rows of the
    store always carry one. *)
Record ChatMessage := mkMsg {
  m_id : option MsgId;
  m_room_id : RoomId;
  m_sender_id : UserId;
  m_content : string;
  m_created_at : Time;
  m_read_at : option Time;
  m_deleted_at : option Time
}.

(** [typing_indicators], primary key (room_id, user_id). *)
Record TypingIndicator := mkTyping {
  t_room_id : RoomId;
  t_user_id : UserId;
  t_updated_at : Time
}.

(** Errors of the store as the client sees them, with their SQLSTATE. *)
Inductive PgError :=
| UniqueViolation
| RlsViolation
| NetworkError.

Definition pg_code (e : PgError) : string :=
  match e with
  | UniqueViolation => "23505"
  | RlsViolation => "42501"
  | NetworkError => ""
  end.

(** What a [catch] clause of the client can receive. *)
Inductive JsError :=
| PgErr (e : PgError)
| JsErr (msg : string).

Definition error_code (e : JsError) : string :=
  match e with
  | PgErr p => pg_code p
  | JsErr _ => ""
  end.

(** ** The store *)

Record Db := mkDb {
  chat_rooms : list ChatRoom;
  chat_messages : list ChatMessage;
  typing_indicators : list TypingIndicator;
  blocked_users : list (UserId * UserId);   (* (blocker_id, blocked_id) *)
  next_uuid : nat
}.

Definition empty_db : Db := mkDb [] [] [] [] 0.

Definition with_new_room (d : Db) (l : list ChatRoom) : Db :=
  mkDb l (chat_messages d) (typing_indicators d) (blocked_users d) (S (next_uuid d)).

Definition with_new_message (d : Db) (l : list ChatMessage) : Db :=
  mkDb (chat_rooms d) l (typing_indicators d) (blocked_users d) (S (next_uuid d)).

Definition with_messages (d : Db) (l : list ChatMessage) : Db :=
  mkDb (chat_rooms d) l (typing_indicators d) (blocked_users d) (next_uuid d).

Definition with_typing (d : Db) (l : list TypingIndicator) : Db :=
  mkDb (chat_rooms d) (chat_messages d) l (blocked_users d) (next_uuid d).

(** The result of a request: the [data] or the [error] of the response. *)
Definition Response (A : Type) : Type := (A + PgError)%type.

(** *** ORDER BY ... ASC: insertion of each row after the rows whose key is
    not larger. *)
Section OrderBy.
Variable A : Type.
Variable key : A -> Time.

Fixpoint insert_by (x : A) (l : list A) : list A :=
  match l with
  | [] => [x]
  | y :: l' => if key x <? key y then x :: l else y :: insert_by x l'
  end.

Fixpoint order_by (l : list A) : list A :=
  match l with
  | [] => []
  | x :: l' => insert_by x (order_by l')
  end.
End OrderBy.

(** *** chat_rooms *)

(** [LEAST] and [GREATEST] of the unique index, and the result of the
    client's [[a, b].sort()]: the pair in ascending order. *)
Definition sort_pair (a b : UserId) : UserId * UserId :=
  if String.leb a b then (a, b) else (b, a).

(** The index [chat_rooms_participants_unique] on
    (LEAST(p1, p2), GREATEST(p1, p2)). *)
Definition pair_key (r : ChatRoom) : UserId * UserId :=
  sort_pair (r_participant1_id r) (r_participant2_id r).

Definition pair_eqb (p q : UserId * UserId) : bool :=
  String.eqb (fst p) (fst q) && String.eqb (snd p) (snd q).

(** Policy "Users can view their chat rooms":
    [auth.uid() IN (participant1_id, participant2_id)]. *)
Definition rls_select_room (uid : UserId) (r : ChatRoom) : bool :=
  String.eqb uid (r_participant1_id r) || String.eqb uid (r_participant2_id r).

(** Policy "Users can view their blocked list": [auth.uid() = blocker_id];
    the subquery of the insert policy below runs under it. *)
Definition rls_select_block (uid : UserId) (b : UserId * UserId) : bool :=
  String.eqb uid (fst b).

Definition blocks (p1 p2 : UserId) (b : UserId * UserId) : bool :=
  (String.eqb (fst b) p1 && String.eqb (snd b) p2)
  || (String.eqb (fst b) p2 && String.eqb (snd b) p1).

(** Policy "Users can create chat rooms": the caller is a participant, the
    participants differ, and no (visible) block relates them. *)
Definition rls_insert_room (uid p1 p2 : UserId) (d : Db) : bool :=
  (String.eqb uid p1 || String.eqb uid p2)
  && negb (String.eqb p1 p2)
  && negb (existsb (blocks p1 p2) (filter (rls_select_block uid) (blocked_users d))).

(** The filter [or(and(p1.eq.a, p2.eq.b), and(p1.eq.b, p2.eq.a))]. *)
Definition room_matches (a b : UserId) (r : ChatRoom) : bool :=
  (String.eqb (r_participant1_id r) a && String.eqb (r_participant2_id r) b)
  || (String.eqb (r_participant1_id r) b && String.eqb (r_participant2_id r) a).

(** First query of [initializeChat]:
    [select * ... or(...).order('created_at').limit(1).maybeSingle()]. *)
Definition find_room (uid a b : UserId) (d : Db) : option ChatRoom :=
  hd_error (order_by r_created_at
              (filter (fun r => rls_select_room uid r && room_matches a b r)
                      (chat_rooms d))).

(** Recovery query: the same filter, [limit(1).maybeSingle()], no order. *)
Definition recover_room (uid a b : UserId) (d : Db) : option ChatRoom :=
  hd_error (filter (fun r => rls_select_room uid r && room_matches a b r)
                   (chat_rooms d)).

(** [insert([{participant1_id, participant2_id}]).select().single()]: the
    policy is checked on the new row, then the unique index; the row gets a
    fresh id and [created_at = now()]. *)
Definition insert_room (uid p1 p2 : UserId) (now : Time) (d : Db)
  : Response ChatRoom * Db :=
  if negb (rls_insert_room uid p1 p2 d) then (inr RlsViolation, d)
  else if existsb (fun r => pair_eqb (pair_key r) (sort_pair p1 p2)) (chat_rooms d)
       then (inr UniqueViolation, d)
  else let r := mkRoom (next_uuid d) p1 p2 now in
       (inl r, with_new_room d (chat_rooms d ++ [r])).

(** *** chat_messages *)

(** Subquery of the message policies: the ids of the rooms of which the
    caller is a participant. *)
Definition in_own_room (uid : UserId) (d : Db) (rid : RoomId) : bool :=
  existsb (fun r => Nat.eqb (r_id r) rid)
          (filter (rls_select_room uid) (chat_rooms d)).

(** Policy "Users can view messages in their rooms". *)
Definition rls_select_message (uid : UserId) (d : Db) (m : ChatMessage) : bool :=
  in_own_room uid d (m_room_id m).

(** Policy "Users can send messages to their rooms". *)
Definition rls_insert_message (uid : UserId) (d : Db) (m : ChatMessage) : bool :=
  in_own_room uid d (m_room_id m) && String.eqb uid (m_sender_id m).

(** Policy "Users can delete their own messages", the only UPDATE policy of
    the table: [USING (auth.uid() = sender_id)] selects the rows that can be
    updated, [WITH CHECK (deleted_at IS NOT NULL AND auth.uid() = sender_id)]
    is required of their new versions. (The rows an update reads also go
    through the SELECT policy; a row whose sender is the caller passes it,
    since only a participant of a room can insert a message into it.) *)
Definition rls_update_using (uid : UserId) (m : ChatMessage) : bool :=
  String.eqb uid (m_sender_id m).

Definition is_some {A} (o : option A) : bool :=
  match o with Some _ => true | None => false end.

Definition rls_update_check (uid : UserId) (m : ChatMessage) : bool :=
  is_some (m_deleted_at m) && String.eqb uid (m_sender_id m).

(** History query of [initializeChat]:
    [select('*').eq('room_id', id).order('created_at', {ascending: true})]. *)
Definition select_messages (uid : UserId) (rid : RoomId) (d : Db) : list ChatMessage :=
  order_by m_created_at
    (filter (fun m => rls_select_message uid d m && Nat.eqb (m_room_id m) rid)
            (chat_messages d)).

(** [insert([newMessage])]: the row takes the client's room, sender, content
    and creation time, a fresh id, and no read or delete time. *)
Definition insert_message (uid : UserId) (newMessage : ChatMessage) (d : Db)
  : Response ChatMessage * Db :=
  if negb (rls_insert_message uid d newMessage) then (inr RlsViolation, d)
  else let row := mkMsg (Some (next_uuid d)) (m_room_id newMessage)
                        (m_sender_id newMessage) (m_content newMessage)
                        (m_created_at newMessage) None None in
       (inl row, with_new_message d (chat_messages d ++ [row])).

(** [update(values).eq(...).eq(...)]: the rows that pass the request's
    filter and the policy's USING clause are replaced; the statement fails
    as a whole when a new version does not pass WITH CHECK. *)
Definition update_messages (uid : UserId) (filt : ChatMessage -> bool)
    (upd : ChatMessage -> ChatMessage) (d : Db) : Response unit * Db :=
  let target m := filt m && rls_update_using uid m in
  if forallb (fun m => negb (target m) || rls_update_check uid (upd m))
             (chat_messages d)
  then (inl tt, with_messages d (map (fun m => if target m then upd m else m)
                                     (chat_messages d)))
  else (inr RlsViolation, d).

Definition set_read_at (t : Time) (m : ChatMessage) : ChatMessage :=
  mkMsg (m_id m) (m_room_id m) (m_sender_id m) (m_content m) (m_created_at m)
        (Some t) (m_deleted_at m).

Definition set_deleted_at (t : Time) (m : ChatMessage) : ChatMessage :=
  mkMsg (m_id m) (m_room_id m) (m_sender_id m) (m_content m) (m_created_at m)
        (m_read_at m) (Some t).

Definition has_id (messageId : MsgId) (m : ChatMessage) : bool :=
  match m_id m with Some i => Nat.eqb i messageId | None => false end.

(** *** typing_indicators *)

(** Policy "Users can manage their typing status" (FOR ALL):
    [auth.uid() = user_id]. *)
Definition rls_typing (uid : UserId) (t : TypingIndicator) : bool :=
  String.eqb uid (t_user_id t).

Definition same_typing_key (a b : TypingIndicator) : bool :=
  Nat.eqb (t_room_id a) (t_room_id b) && String.eqb (t_user_id a) (t_user_id b).

(** The age after which a typing row is stale: [INTERVAL '10 seconds']. *)
Definition passive_expiry_window : Time := 10000.

(** Trigger [cleanup_typing_indicators], run after every insert or update
    statement with the rights of the caller, so under the policy above:
    [DELETE ... WHERE updated_at < NOW() - INTERVAL '10 seconds']. *)
Definition cleanup_typing_indicators (uid : UserId) (now : Time)
    (l : list TypingIndicator) : list TypingIndicator :=
  filter (fun t => negb (rls_typing uid t
                         && (t_updated_at t <? now - passive_expiry_window))) l.

(** [upsert(row, {onConflict: 'room_id,user_id'})]. *)
Definition upsert_typing (uid : UserId) (row : TypingIndicator) (now : Time) (d : Db)
  : Response unit * Db :=
  if negb (rls_typing uid row) then (inr RlsViolation, d)
  else
    let l := typing_indicators d in
    let l' := if existsb (same_typing_key row) l
              then map (fun t => if same_typing_key row t then row else t) l
              else l ++ [row] in
    (inl tt, with_typing d (cleanup_typing_indicators uid now l')).

(** [delete().match({room_id, user_id})]. *)
Definition delete_typing (uid : UserId) (rid : RoomId) (user : UserId) (d : Db)
  : Response unit * Db :=
  (inl tt,
   with_typing d
     (filter (fun t => negb (rls_typing uid t
                             && Nat.eqb (t_room_id t) rid
                             && String.eqb (t_user_id t) user))
             (typing_indicators d))).

(** ** The client: state of the hook and its environment *)

(** The four state cells of [useChat]. *)
Record Session := mkSession {
  room : option ChatRoom;
  messages : list ChatMessage;
  isOtherUserTyping : bool;
  loading : bool
}.

Definition initial_session : Session := mkSession None [] false true.

(** Realtime channels [room:<id>] and [typing:<id>]. *)
Inductive Channel :=
| MessagesChannel (rid : RoomId)
| TypingChannel (rid : RoomId).

Definition channel_eqb (a b : Channel) : bool :=
  match a, b with
  | MessagesChannel x, MessagesChannel y => Nat.eqb x y
  | TypingChannel x, TypingChannel y => Nat.eqb x y
  | _, _ => false
  end.

(** Everything an operation of the hook can read or change: the store, the
    outcome of the coming requests ([Some e]: the request fails with [e]
    before reaching the store; an exhausted list means no more failures),
    the console, the open realtime subscriptions, the due times of the
    pending [setTimeout(() => setIsOtherUserTyping(false), 3000)] callbacks,
    and the state cells. *)
Record World := mkWorld {
  db : Db;
  net : list (option PgError);
  console : list (string * JsError);
  subs : list Channel;
  timers : list Time;
  session : Session
}.

Definition initial_world (d : Db) : World := mkWorld d [] [] [] [] initial_session.

Definition set_db (d : Db) (w : World) : World :=
  mkWorld d (net w) (console w) (subs w) (timers w) (session w).
Definition set_net (n : list (option PgError)) (w : World) : World :=
  mkWorld (db w) n (console w) (subs w) (timers w) (session w).
Definition set_console (c : list (string * JsError)) (w : World) : World :=
  mkWorld (db w) (net w) c (subs w) (timers w) (session w).
Definition set_subs (s : list Channel) (w : World) : World :=
  mkWorld (db w) (net w) (console w) s (timers w) (session w).
Definition set_timers (t : list Time) (w : World) : World :=
  mkWorld (db w) (net w) (console w) (subs w) t (session w).
Definition set_session (s : Session) (w : World) : World :=
  mkWorld (db w) (net w) (console w) (subs w) (timers w) s.

(** *** Computations: state passing with exceptions *)

Inductive Outcome (A : Type) :=
| Ret (a : A)
| Throw (e : JsError).
Arguments Ret {A} a.
Arguments Throw {A} e.

Definition M (A : Type) : Type := World -> Outcome A * World.

Definition ret {A} (a : A) : M A := fun w => (Ret a, w).

Definition throw {A} (e : JsError) : M A := fun w => (Throw e, w).

Definition bind {A B} (m : M A) (k : A -> M B) : M B :=
  fun w => match m w with
           | (Ret a, w') => k a w'
           | (Throw e, w') => (Throw e, w')
           end.

Definition try_catch {A} (m : M A) (handler : JsError -> M A) : M A :=
  fun w => match m w with
           | (Ret a, w') => (Ret a, w')
           | (Throw e, w') => handler e w'
           end.

Notation "x <- m ;; k" := (bind m (fun x => k))
  (at level 61, m at next level, right associativity).
Notation "m ;; k" := (bind m (fun _ => k))
  (at level 61, right associativity).

(** A request to the store: it fails with the pending outcome of [net], or
    reaches the store and runs there. The client library reports failures
    in the [error] field of the response; it does not throw. *)
Definition request {A} (op : Db -> Response A * Db) : M (Response A) :=
  fun w =>
    match net w with
    | Some e :: rest => (Ret (inr e), set_net rest w)
    | None :: rest =>
        let '(r, d') := op (db w) in (Ret r, set_db d' (set_net rest w))
    | [] =>
        let '(r, d') := op (db w) in (Ret r, set_db d' w)
    end.

Definition query {A} (q : Db -> A) : Db -> Response A * Db :=
  fun d => (inl (q d), d).

Definition console_error (label : string) (e : JsError) : M unit :=
  fun w => (Ret tt, set_console ((label, e) :: console w) w).

Definition setRoom (r : ChatRoom) : M unit :=
  fun w => let s := session w in
    (Ret tt, set_session (mkSession (Some r) (messages s) (isOtherUserTyping s) (loading s)) w).

Definition setMessages (f : list ChatMessage -> list ChatMessage) : M unit :=
  fun w => let s := session w in
    (Ret tt, set_session (mkSession (room s) (f (messages s)) (isOtherUserTyping s) (loading s)) w).

Definition setIsOtherUserTyping (b : bool) : M unit :=
  fun w => let s := session w in
    (Ret tt, set_session (mkSession (room s) (messages s) b (loading s)) w).

Definition setLoading (b : bool) : M unit :=
  fun w => let s := session w in
    (Ret tt, set_session (mkSession (room s) (messages s) (isOtherUserTyping s) b) w).

Definition subscribe (c : Channel) : M unit :=
  fun w => (Ret tt, set_subs (subs w ++ [c]) w).

Definition unsubscribe (c : Channel) : M unit :=
  fun w => (Ret tt, set_subs (filter (fun c' => negb (channel_eqb c c')) (subs w)) w).

Definition setTimeout (now delay : Time) : M unit :=
  fun w => (Ret tt, set_timers (timers w ++ [now + delay]) w).

(** ** The hook [useChat] *)

(** What the function returned at the end of [initializeChat] closes over:
    the two subscriptions it unsubscribes. *)
Definition Cleanup := list Channel.

Fixpoint run_cleanup (c : Cleanup) : M unit :=
  match c with
  | [] => ret tt
  | ch :: c' => unsubscribe ch ;; run_cleanup c'
  end.

Definition data_or_null {A} (r : Response (option A)) : option A :=
  match r with
  | inl a => a
  | inr _ => None
  end.

(** Lines 43-100: get or create the room. The first and the recovery query
    read only [data] of the response. Every path ends with a room or with
    an exception, so the check of line 98 ([if (!currentRoom) throw ...])
    has nothing left to catch and is not repeated. *)
Definition resolveRoom (user otherUserId : UserId) (now : Time) : M ChatRoom :=
  existing <- request (query (find_room user user otherUserId)) ;;
  match data_or_null existing with
  | Some currentRoom => ret currentRoom
  | None =>
      let '(participant1_id, participant2_id) := sort_pair user otherUserId in
      try_catch
        (created <- request (insert_room user participant1_id participant2_id now) ;;
         match created with
         | inr createError => throw (PgErr createError)
         | inl newRoom => ret newRoom
         end)
        (fun error =>
           if String.eqb (error_code error) "23505" then
             recovered <- request (query (recover_room user participant1_id participant2_id)) ;;
             match data_or_null recovered with
             | Some recoveredRoom => ret recoveredRoom
             | None => throw (JsErr "Failed to recover chat room after unique constraint violation")
             end
           else throw error)
  end.

(** Handler of the INSERT events of [chat_messages] (line 126). *)
Definition on_message_insert (payload_new : ChatMessage) : M unit :=
  setMessages (fun current => current ++ [payload_new]).

(** Handler of the events of [typing_indicators] (lines 142-148);
    [payload.new] has no [user_id] for a DELETE event. *)
Definition on_typing_event (otherUserId : UserId) (now : Time)
    (payload_new : option TypingIndicator) : M unit :=
  match payload_new with
  | Some t =>
      if String.eqb (t_user_id t) otherUserId then
        setIsOtherUserTyping true ;;
        setTimeout now 3000
      else ret tt
  | None => ret tt
  end.

(** [initializeChat] (lines 40-162). Its result is the value the returned
    promise resolves to: the cleanup function, or nothing after an error. *)
Definition initializeChat (user otherUserId : UserId) (now : Time) : M (option Cleanup) :=
  try_catch
    (currentRoom <- resolveRoom user otherUserId now ;;
     setRoom currentRoom ;;
     loaded <- request (query (select_messages user (r_id currentRoom))) ;;
     match loaded with
     | inr messagesError => throw (PgErr messagesError)
     | inl msgs =>
         setMessages (fun _ => msgs) ;;
         subscribe (MessagesChannel (r_id currentRoom)) ;;
         subscribe (TypingChannel (r_id currentRoom)) ;;
         setLoading false ;;
         ret (Some [MessagesChannel (r_id currentRoom); TypingChannel (r_id currentRoom)])
     end)
    (fun error =>
       console_error "Error initializing chat:" error ;;
       setLoading false ;;
       ret None).

(** The effect of the hook (lines 36-165): it starts [initializeChat] and
    returns nothing to React; the value of the promise is not used. *)
Definition useChat_effect (user : option UserId) (otherUserId : UserId) (now : Time)
  : M (option Cleanup) :=
  match user with
  | None => ret None
  | Some u =>
      initializeChat u otherUserId now ;;
      ret None
  end.

(** Closing the view: React runs the cleanup the effect returned, if any.
    Only the subscriptions are followed past this point: React drops the
    state cells of a closed component, so nothing is said about the session
    afterwards. *)
Definition close_view (effect_cleanup : option Cleanup) : M unit :=
  match effect_cleanup with
  | Some c => run_cleanup c
  | None => ret tt
  end.

(** [sendMessage] (lines 167-198). *)
Definition sendMessage (user : option UserId) (content : string) (now : Time) : M unit :=
  fun w =>
    match room (session w), user with
    | Some r, Some u =>
        try_catch
          (let newMessage := mkMsg None (r_id r) u content now None None in
           setMessages (fun current => current ++ [newMessage]) ;;
           res <- request (insert_message u newMessage) ;;
           match res with
           | inr error =>
               setMessages
                 (filter (fun msg => negb (String.eqb (m_content msg) content)
                                     || negb (String.eqb (m_sender_id msg) u))) ;;
               throw (PgErr error)
           | inl _ => ret tt
           end)
          (fun error =>
             console_error "Error sending message:" error ;;
             throw error)
          w
    | _, _ => ret tt w
    end.

(** [setTyping] (lines 200-224). Two clocks are read: [now] is the
    client's [new Date()], written into the row; [server_now] is the
    [NOW()] of the store, which the sweep trigger compares the rows with. *)
Definition setTyping (user : option UserId) (isTyping : bool) (now server_now : Time)
  : M unit :=
  fun w =>
    match room (session w), user with
    | Some r, Some u =>
        try_catch
          (if isTyping
           then request (upsert_typing u (mkTyping (r_id r) u now) server_now) ;; ret tt
           else request (delete_typing u (r_id r) u) ;; ret tt)
          (fun error => console_error "Error updating typing indicator:" error)
          w
    | _, _ => ret tt w
    end.

(** [markAsRead] (lines 226-238). *)
Definition markAsRead (user : option UserId) (otherUserId : UserId)
    (messageId : MsgId) (now : Time) : M unit :=
  match user with
  | None => ret tt
  | Some u =>
      try_catch
        (request (update_messages u
                    (fun m => has_id messageId m && String.eqb (m_sender_id m) otherUserId)
                    (set_read_at now)) ;;
         ret tt)
        (fun error => console_error "Error marking message as read:" error)
  end.

(** [deleteMessage] (lines 240-252). *)
Definition deleteMessage (user : option UserId) (messageId : MsgId) (now : Time) : M unit :=
  match user with
  | None => ret tt
  | Some u =>
      try_catch
        (request (update_messages u
                    (fun m => has_id messageId m && String.eqb (m_sender_id m) u)
                    (set_deleted_at now)) ;;
         ret tt)
        (fun error => console_error "Error deleting message:" error)
  end.

(** ** Pushed events and timers *)

Inductive RtEvent :=
| MessageInserted (row : ChatMessage)
| TypingChanged (rid : RoomId) (payload_new : option TypingIndicator).

(** An event reaches a handler when the channel of its room is subscribed.
    The handlers are those [initializeChat] registered for [otherUserId]:
    this is a session whose hook was mounted once, on that user. (A hook
    re-rendered with another [otherUserId] keeps the handlers of the
    earlier runs, which compare with the earlier id; statements about
    [deliver] are made for a session mounted once.) *)
Definition deliver (otherUserId : UserId) (now : Time) (ev : RtEvent) : M unit :=
  fun w =>
    match ev with
    | MessageInserted row =>
        if existsb (channel_eqb (MessagesChannel (m_room_id row))) (subs w)
        then on_message_insert row w
        else ret tt w
    | TypingChanged rid payload_new =>
        if existsb (channel_eqb (TypingChannel rid)) (subs w)
        then on_typing_event otherUserId now payload_new w
        else ret tt w
    end.

(** The event loop at time [now]: every pending timeout that is due runs
    its callback [setIsOtherUserTyping(false)]. *)
Definition run_timers (now : Time) : M unit :=
  fun w =>
    match filter (fun due => due <=? now) (timers w) with
    | [] => ret tt w
    | _ :: _ =>
        (setIsOtherUserTyping false ;;
         (fun w' => (Ret tt, set_timers (filter (fun due => negb (due <=? now)) (timers w')) w')))
          w
    end.

Definition world_after {A} (m : M A) (w : World) : World := snd (m w).

(** A run of the session: at each time of the trace the due timers fire,
    then the event is delivered. *)
Fixpoint run_events (otherUserId : UserId) (trace : list (Time * RtEvent)) (w : World)
  : World :=
  match trace with
  | [] => w
  | (t, ev) :: rest =>
      run_events otherUserId rest
        (world_after (deliver otherUserId t ev) (world_after (run_timers t) w))
  end.

(** ** Room resolution step by step

    The same resolution cut at its requests, for runs in which the requests
    of two clients interleave. Each request comes with the outcome of its
    transport, as in [request]: [Some e] when it fails with [e] before
    reaching the store, [None] when it reaches the store and runs there. *)
Inductive ResolvePc :=
| AtFind
| AtInsert
| AtRecover
| Resolved (r : ChatRoom)
| Failed (e : JsError).

(** The response to one request and the store after it. *)
Definition respond {A} (fault : option PgError) (op : Db -> Response A * Db) (d : Db)
  : Response A * Db :=
  match fault with
  | Some e => (inr e, d)
  | None => op d
  end.

(** One request of [resolveRoom] and what the client does with the
    response: a lookup that fails reads as no room found, an insert that
    fails goes to the recovery query when its code is 23505 and raises
    otherwise, a recovery query that fails or finds nothing raises. *)
Definition resolve_step (user otherUserId : UserId) (now : Time)
    (fault : option PgError) (pc : ResolvePc) (d : Db) : ResolvePc * Db :=
  match pc with
  | AtFind =>
      let '(existing, d') := respond fault (query (find_room user user otherUserId)) d in
      match data_or_null existing with
      | Some currentRoom => (Resolved currentRoom, d')
      | None => (AtInsert, d')
      end
  | AtInsert =>
      let '(participant1_id, participant2_id) := sort_pair user otherUserId in
      match respond fault (insert_room user participant1_id participant2_id now) d with
      | (inl newRoom, d') => (Resolved newRoom, d')
      | (inr createError, d') =>
          if String.eqb (pg_code createError) "23505" then (AtRecover, d')
          else (Failed (PgErr createError), d')
      end
  | AtRecover =>
      let '(participant1_id, participant2_id) := sort_pair user otherUserId in
      let '(recovered, d') :=
        respond fault (query (recover_room user participant1_id participant2_id)) d in
      match data_or_null recovered with
      | Some recoveredRoom => (Resolved recoveredRoom, d')
      | None =>
          (Failed (JsErr "Failed to recover chat room after unique constraint violation"),
           d')
      end
  | Resolved _ | Failed _ => (pc, d)
  end.

(** Two clients: [a] opens the chat with [b] and [b] with [a]. *)
Record Race := mkRace {
  pc_a : ResolvePc;
  pc_b : ResolvePc;
  race_db : Db
}.

(** One entry of a schedule: which client's next request runs ([true] for
    [a]), when, and whether it reaches the store. *)
Record Turn := mkTurn {
  turn_of_a : bool;
  turn_now : Time;
  turn_fault : option PgError
}.

Definition race_step (a b : UserId) (turn : Turn) (c : Race) : Race :=
  if turn_of_a turn
  then let '(pc, d) :=
         resolve_step a b (turn_now turn) (turn_fault turn) (pc_a c) (race_db c) in
       mkRace pc (pc_b c) d
  else let '(pc, d) :=
         resolve_step b a (turn_now turn) (turn_fault turn) (pc_b c) (race_db c) in
       mkRace (pc_a c) pc d.

Fixpoint race (a b : UserId) (schedule : list Turn) (c : Race) : Race :=
  match schedule with
  | [] => c
  | turn :: rest => race a b rest (race_step a b turn c)
  end.

(** The number of turns of one client in a schedule. *)
Definition turns (who : bool) (schedule : list Turn) : nat :=
  List.length (filter (fun turn => Bool.eqb (turn_of_a turn) who) schedule).

(** A schedule in which every request reaches the store. *)
Definition lossless (schedule : list Turn) : Prop :=
  Forall (fun turn => turn_fault turn = None) schedule.

(** The rows of [chat_rooms] for the unordered pair. *)
Definition rooms_of_pair (a b : UserId) (d : Db) : list ChatRoom :=
  filter (room_matches a b) (chat_rooms d).

(** The state of the unique index: no two rows with the same key. *)
Definition unique_index (d : Db) : Prop :=
  NoDup (map pair_key (chat_rooms d)).

(** No row of [blocked_users] relates the two users. *)
Definition unblocked (a b : UserId) (d : Db) : Prop :=
  existsb (blocks a b) (blocked_users d) = false.

(** ** Notions used in the statements *)

(** The outcome of the request after [i] others, as [net] has it. *)
Definition fault_at (n : list (option PgError)) (i : nat) : option PgError :=
  match nth_error n i with
  | Some (Some e) => Some e
  | _ => None
  end.

(** The resolution of one client alone: its three possible requests in a
    row, with the outcomes [net] holds for them. *)
Definition resolve_alone (user otherUserId : UserId) (now : Time)
    (n : list (option PgError)) (d : Db) : ResolvePc * Db :=
  let '(pc1, d1) := resolve_step user otherUserId now (fault_at n 0) AtFind d in
  let '(pc2, d2) := resolve_step user otherUserId now (fault_at n 1) pc1 d1 in
  resolve_step user otherUserId now (fault_at n 2) pc2 d2.

(** Requests a resolution still has to make, at most. *)
Definition remaining (pc : ResolvePc) : nat :=
  match pc with
  | AtFind => 3
  | AtInsert => 2
  | AtRecover => 1
  | Resolved _ | Failed _ => 0
  end.

(** What a resolved client holds, whatever was lost on the way: a row of
    the table for the pair. *)
Definition pc_safe (a b : UserId) (d : Db) (pc : ResolvePc) : Prop :=
  match pc with
  | Resolved r => In r (chat_rooms d) /\ room_matches a b r = true
  | _ => True
  end.

(** What holds all along a race, whatever is lost: the index, and resolved
    clients holding rows of the pair. *)
Definition race_safe (a b : UserId) (c : Race) : Prop :=
  unique_index (race_db c)
  /\ pc_safe a b (race_db c) (pc_a c)
  /\ pc_safe a b (race_db c) (pc_b c).

(** What each stage of a resolution knows about the store when no request
    is lost and no block relates the users: a client that met the unique
    index is behind an existing row; a resolved client holds a row of the
    table for the pair; no client has failed. *)
Definition pc_ok (a b : UserId) (d : Db) (pc : ResolvePc) : Prop :=
  match pc with
  | AtFind | AtInsert => True
  | AtRecover => rooms_of_pair a b d <> []
  | Resolved r => In r (chat_rooms d) /\ room_matches a b r = true
  | Failed _ => False
  end.

(** What holds all along a race without losses: the index, no block
    between the two users, and both clients at a stage they can justify. *)
Definition race_inv (a b : UserId) (c : Race) : Prop :=
  unique_index (race_db c)
  /\ unblocked a b (race_db c)
  /\ pc_ok a b (race_db c) (pc_a c)
  /\ pc_ok a b (race_db c) (pc_b c).

(** The part of the world a request cannot touch. *)
Definition client_side (w : World)
  : list (string * JsError) * list Channel * list Time * Session :=
  (console w, subs w, timers w, session w).

(** A computation that leaves the client side alone. *)
Definition keeps_client {A} (m : M A) : Prop :=
  forall w, client_side (snd (m w)) = client_side w.

(** The coming request is not lost on the way to the store. *)
Definition next_request_arrives (w : World) : Prop :=
  match net w with
  | Some _ :: _ => False
  | _ => True
  end.

(** The value a finished computation hands to its caller, if any. *)
Definition returned {A} (o : Outcome (option A)) : option A :=
  match o with
  | Ret c => c
  | Throw _ => None
  end.

(** Opening the view and closing it again, as React does: the effect runs,
    and on closing the cleanup the effect returned is run. *)
Definition open_then_close (user : option UserId) (otherUserId : UserId) (now : Time)
    (w : World) : World :=
  let '(res, w1) := useChat_effect user otherUserId now w in
  world_after (close_view (returned res)) w1.

(** How an update leaves a row: as it was, or rewritten, and then it
    passed the filter of the request and the USING clause of the policy. *)
Definition row_change (uid : UserId) (filt : ChatMessage -> bool)
    (upd : ChatMessage -> ChatMessage) (m m' : ChatMessage) : Prop :=
  m' = m \/ (m' = upd m /\ filt m = true /\ rls_update_using uid m = true).

(** How [markAsRead] leaves a row: as it was, or with [read_at] set to the
    time of the call, and then the row has the id asked for and
    [otherUserId] as its sender. *)
Definition read_change (otherUserId : UserId) (messageId : MsgId) (now : Time)
    (m m' : ChatMessage) : Prop :=
  m' = m
  \/ (m' = set_read_at now m /\ has_id messageId m = true /\ m_sender_id m = otherUserId).

(** How [deleteMessage] leaves a row: as it was, or with [deleted_at] set
    to the time of the call, and then the row has the id asked for and the
    caller as its sender. *)
Definition delete_change (user : UserId) (messageId : MsgId) (now : Time)
    (m m' : ChatMessage) : Prop :=
  m' = m
  \/ (m' = set_deleted_at now m /\ has_id messageId m = true /\ m_sender_id m = user).

(** The events that turn the indicator on: a typing row of the other user,
    inserted or updated. *)
Definition sets_indicator (otherUserId : UserId) (ev : RtEvent) : bool :=
  match ev with
  | TypingChanged _ (Some t) => String.eqb (t_user_id t) otherUserId
  | _ => false
  end.

(** A timer is pending whenever the indicator shows. *)
Definition typing_has_timer (w : World) : Prop :=
  isOtherUserTyping (session w) = true -> timers w <> [].

(** ** Concrete scenarios *)

(** A store in which alice and bob have blocked each other. *)
Definition blocked_db : Db :=
  mkDb [] [] [] [("alice", "bob"); ("bob", "alice")] 0%nat.

(** Two simultaneous first contacts, the requests taking turns and all
    reaching the store. *)
Definition alternating : list Turn :=
  [mkTurn true 1 None; mkTurn false 2 None; mkTurn true 3 None;
   mkTurn false 4 None; mkTurn true 5 None; mkTurn false 6 None].

(** The same, but the insert of the second client is lost on the network:
    the first has created the room, the second gives up. *)
Definition insert_lost : list Turn :=
  [mkTurn true 1 None; mkTurn false 2 None; mkTurn true 3 None;
   mkTurn false 4 (Some NetworkError); mkTurn true 5 None; mkTurn false 6 None].

(** A room of alice and bob with two messages, the older one deleted by its
    sender, stored out of order. *)
Definition history_db : Db :=
  mkDb [mkRoom 0%nat "alice" "bob" 10]
       [mkMsg (Some 2%nat) 0%nat "bob" "second" 30 None None;
        mkMsg (Some 1%nat) 0%nat "alice" "first" 20 None (Some 25)]
       [] [] 3%nat.

(** Alice's history with bob: one message of hers, confirmed by the store. *)
Definition confirmed_hi : ChatMessage :=
  mkMsg (Some 1%nat) 0%nat "alice" "hi" 150 None None.

(** The store with their room and that message. *)
Definition hi_db : Db :=
  mkDb [mkRoom 0%nat "alice" "bob" 100] [confirmed_hi] [] [] 2%nat.

(** A store in which alice has deleted her own message. *)
Definition own_deleted_db : Db :=
  mkDb [mkRoom 0%nat "alice" "bob" 100]
       [mkMsg (Some 1%nat) 0%nat "alice" "hi" 150 None (Some 160)] [] [] 2%nat.

(** Alice's session after a first contact with bob over the empty store. *)
Definition alice_fresh : World :=
  world_after (initializeChat "alice" "bob" 100) (initial_world empty_db).

(** Alice's session after opening the chat with bob over [hi_db]. *)
Definition alice_ready : World :=
  world_after (initializeChat "alice" "bob" 200) (initial_world hi_db).

(** Bob's typing row reaches alice's session once, at the first second;
    ten seconds later a message of his arrives. *)
Definition bob_types_once : list (Time * RtEvent) :=
  [(1000, TypingChanged 0%nat (Some (mkTyping 0%nat "bob" 990)));
   (11000, MessageInserted (mkMsg (Some 1%nat) 0%nat "bob" "hello" 10990 None None))].

(** ** The writes of the hook

    The statements the operations of [useChat] send to the store that can
    change it, each with the arguments the hook gives it. *)
Inductive HookWrite : Db -> Db -> Prop :=
| write_room (user otherUserId : UserId) (now : Time) (d : Db) :
    HookWrite d (snd (insert_room user (fst (sort_pair user otherUserId))
                                  (snd (sort_pair user otherUserId)) now d))
| write_message (user : UserId) (rid : RoomId) (content : string) (now : Time) (d : Db) :
    HookWrite d (snd (insert_message user (mkMsg None rid user content now None None) d))
| write_read (user otherUserId : UserId) (messageId : MsgId) (now : Time) (d : Db) :
    HookWrite d (snd (update_messages user
                        (fun m => has_id messageId m
                                  && String.eqb (m_sender_id m) otherUserId)
                        (set_read_at now) d))
| write_deleted (user : UserId) (messageId : MsgId) (now : Time) (d : Db) :
    HookWrite d (snd (update_messages user
                        (fun m => has_id messageId m && String.eqb (m_sender_id m) user)
                        (set_deleted_at now) d))
| write_typing_on (user : UserId) (rid : RoomId) (now server_now : Time) (d : Db) :
    HookWrite d (snd (upsert_typing user (mkTyping rid user now) server_now d))
| write_typing_off (user : UserId) (rid : RoomId) (d : Db) :
    HookWrite d (snd (delete_typing user rid user d)).

(** The stores the hook can produce: any number of its writes, by any
    users in any order, over chat tables that start empty. *)
Inductive reachable : Db -> Prop :=
| reach_start (d : Db) :
    chat_rooms d = [] -> chat_messages d = [] -> typing_indicators d = [] ->
    reachable d
| reach_write (d d' : Db) :
    reachable d -> HookWrite d d' -> reachable d'.

(** The key of [typing_indicators]. *)
Definition typing_key (t : TypingIndicator) : RoomId * UserId :=
  (t_room_id t, t_user_id t).

Definition typing_keys_unique (d : Db) : Prop :=
  NoDup (map typing_key (typing_indicators d)).

(** A room as the hook writes it: two different participants, the smaller
    id first. *)
Definition room_canonical (r : ChatRoom) : Prop :=
  r_participant1_id r <> r_participant2_id r
  /\ String.leb (r_participant1_id r) (r_participant2_id r) = true.

(** The sender of a message takes part in its room. *)
Definition sender_in_room (d : Db) (m : ChatMessage) : Prop :=
  in_own_room (m_sender_id m) d (m_room_id m) = true.

(** What of a message no write of the hook changes. *)
Definition message_core (m : ChatMessage)
  : option MsgId * RoomId * UserId * string * Time :=
  (m_id m, m_room_id m, m_sender_id m, m_content m, m_created_at m).

(** A computation that leaves the store as it is. *)
Definition reads_only {A} (m : M A) : Prop :=
  forall w, db (snd (m w)) = db w.

(** A computation that changes the store by one write of the hook, if at
    all. *)
Definition writes_once {A} (m : M A) : Prop :=
  forall w, db (snd (m w)) = db w \/ HookWrite (db w) (db (snd (m w))).

(** A store after three writes of the hook: alice opens the chat with bob,
    sends "hi" and starts typing. *)
Definition busy_db : Db :=
  snd (upsert_typing "alice" (mkTyping 0%nat "alice" 160) 160
         (snd (insert_message "alice" (mkMsg None 0%nat "alice" "hi" 150 None None)
                 (snd (insert_room "alice" (fst (sort_pair "alice" "bob"))
                                   (snd (sort_pair "alice" "bob")) 100 empty_db))))).

(** The four properties of the store the writes of the hook keep. *)
Definition store_inv (d : Db) : Prop :=
  unique_index d
  /\ Forall room_canonical (chat_rooms d)
  /\ typing_keys_unique d
  /\ Forall (sender_in_room d) (chat_messages d).

(** Rooms and messages are only added, and what is there keeps its id,
    room, sender, content and creation time. *)
Definition only_grows (d d' : Db) : Prop :=
  (exists l, chat_rooms d' = chat_rooms d ++ l)
  /\ (exists l, map message_core (chat_messages d')
                = map message_core (chat_messages d) ++ l).

(** A computation after which the store satisfies what it satisfied
    before, for a property of stores. *)
Definition keeps_store {A} (P : Db -> Prop) (m : M A) : Prop :=
  forall w, P (db w) -> P (db (world_after m w)).

(** A computation that loses nothing of the store. *)
Definition loses_nothing {A} (m : M A) : Prop :=
  forall w, only_grows (db w) (db (world_after m w)).

(** A computation whose only possible change of the store is [f]. *)
Definition writes_only {A} (f : Db -> Db) (m : M A) : Prop :=
  forall w, db (snd (m w)) = db w \/ db (snd (m w)) = f (db w).

(** The insert a resolution of ([user], [otherUserId]) can make. *)
Definition create_room (user otherUserId : UserId) (now : Time) (d : Db) : Db :=
  snd (insert_room user (fst (sort_pair user otherUserId))
                   (snd (sort_pair user otherUserId)) now d).

(** None of the coming requests is lost. *)
Definition all_arrive (n : list (option PgError)) : Prop :=
  Forall (fun outcome => outcome = None) n.

(** ** The chat window (src/components/chat-window.tsx)

    [String.prototype.trim] removes the white space at both ends of a
    string; which characters count as white space is left open. *)
Section Trim.
Variable is_space : Ascii.ascii -> bool.

Fixpoint drop_spaces (l : list Ascii.ascii) : list Ascii.ascii :=
  match l with
  | [] => []
  | c :: l' => if is_space c then drop_spaces l' else l
  end.

Definition trim (s : string) : string :=
  string_of_list_ascii
    (rev (drop_spaces (rev (drop_spaces (list_ascii_of_string s))))).
End Trim.

(** The two state cells of [ChatWindow] that its handlers write: the text
    of the input and the typing flag. *)
Record ChatWindowState := mkWindow {
  cw_message : string;
  cw_isTyping : bool
}.

(** [handleSendMessage] (lines 70-82), with the state it leaves: after a
    send that returned, [setMessage('')], [setIsTyping(false)] and
    [setTyping(false)]; after a send that raised, a line on the console.
    ([setTyping(false)] deletes and reads no clock of the store. The typing
    effect of the component, which runs again at every render, is not part
    of the handler.) *)
Definition handleSendMessage (is_space : Ascii.ascii -> bool) (user : option UserId)
    (now : Time) (win : ChatWindowState) : M ChatWindowState :=
  if String.eqb (trim is_space (cw_message win)) "" then ret win
  else
    try_catch
      (sendMessage user (cw_message win) now ;;
       setTyping user false now now ;;
       ret (mkWindow "" false))
      (fun error =>
         console_error "Error sending message:" error ;;
         ret win).

(** A text with nothing but white space. *)
Definition blank (is_space : Ascii.ascii -> bool) (s : string) : bool :=
  forallb is_space (list_ascii_of_string s).

(** The white space of the ASCII range: tab, line feed, vertical tab, form
    feed, carriage return and space. *)
Definition ascii_space (c : Ascii.ascii) : bool :=
  let n := Ascii.nat_of_ascii c in
  ((9 <=? n) && (n <=? 13))%nat || Nat.eqb n 32.

(** ** The list of chats (MessagesList)

    A row of the two room queries of [loadChatRooms]; the joined
    [participant] and [latest_message] are not read by the function and
    are left out. *)
Record InboxRoom := mkInbox {
  i_id : RoomId;
  i_participant1_id : UserId;
  i_participant2_id : UserId;
  i_last_message_at : Time
}.

(** [Array.prototype.sort] with the comparator
    [(a, b) => time(b) - time(a)]: a stable sort, latest first. Each row
    goes in front of the first row that is not later than it. *)
Section SortDesc.
Variable A : Type.
Variable key : A -> Time.

Fixpoint insert_desc (x : A) (l : list A) : list A :=
  match l with
  | [] => [x]
  | y :: l' => if key y <=? key x then x :: l else y :: insert_desc x l'
  end.

Fixpoint sort_desc (l : list A) : list A :=
  match l with
  | [] => []
  | x :: l' => insert_desc x (sort_desc l')
  end.
End SortDesc.

(** The state cells [rooms] and [loading] of the list, and its console. *)
Record InboxState := mkInboxState {
  in_rooms : list InboxRoom;
  in_loading : bool;
  in_console : list (string * JsError)
}.

(** [loadChatRooms], given the responses of its two queries (the second is
    awaited only after the first has succeeded). *)
Definition loadChatRooms (first second : Response (list InboxRoom)) (s : InboxState)
  : InboxState :=
  match first with
  | inr error =>
      mkInboxState (in_rooms s) false
        (("Error loading chat rooms:", PgErr error) :: in_console s)
  | inl data =>
      match second with
      | inr error2 =>
          mkInboxState (in_rooms s) false
            (("Error loading chat rooms:", PgErr error2) :: in_console s)
      | inl data2 =>
          mkInboxState (sort_desc i_last_message_at (data ++ data2)) false (in_console s)
      end
  end.

(** ** Phone numbers (formatPhoneNumber, normalizePhoneNumber)

    The class [\d] of the two regular expressions: the ten ASCII digits. *)
Definition is_digit (c : Ascii.ascii) : bool :=
  let n := Ascii.nat_of_ascii c in
  ((48 <=? n) && (n <=? 57))%nat.

(** [value.replace(/[^\d]/g, '')]. *)
Definition digits_of (value : string) : list Ascii.ascii :=
  filter is_digit (list_ascii_of_string value).

Definition normalizePhoneNumber (value : string) : string :=
  string_of_list_ascii (digits_of value).

(** [s.slice(a, b)] and [s.slice(a)], for [a <= b]. *)
Definition slice (a b : nat) (s : string) : string :=
  string_of_list_ascii (firstn (b - a) (skipn a (list_ascii_of_string s))).

Definition slice_from (a : nat) (s : string) : string :=
  string_of_list_ascii (skipn a (list_ascii_of_string s)).

Definition formatPhoneNumber (value : string) : string :=
  if String.eqb value "" then value
  else
    let phoneNumber := normalizePhoneNumber value in
    if (String.length phoneNumber <=? 3)%nat then
      String.append "(" phoneNumber
    else if (String.length phoneNumber <=? 6)%nat then
      String.append "("
        (String.append (slice 0 3 phoneNumber)
           (String.append ") " (slice_from 3 phoneNumber)))
    else
      String.append "("
        (String.append (slice 0 3 phoneNumber)
           (String.append ") "
              (String.append (slice 3 6 phoneNumber)
                 (String.append " " (slice 6 10 phoneNumber))))).

(** The characters of a formatted number, from its digits. *)
Definition format_chars (d : list Ascii.ascii) : list Ascii.ascii :=
  if (List.length d <=? 3)%nat then list_ascii_of_string "(" ++ d
  else if (List.length d <=? 6)%nat then
    list_ascii_of_string "(" ++ firstn 3 d ++ list_ascii_of_string ") " ++ skipn 3 d
  else
    list_ascii_of_string "(" ++ firstn 3 d ++ list_ascii_of_string ") "
      ++ firstn 3 (skipn 3 d) ++ list_ascii_of_string " " ++ firstn 4 (skipn 6 d).

(** * Properties *)

(** ** Ordering *)

Section OrderByFacts.
Variable A : Type.
Variable key : A -> Time.

Lemma insert_by_perm (x : A) (l : list A) :
  Permutation (insert_by key x l) (x :: l).
Proof.
  induction l as [|y l IH]; simpl.
  - apply Permutation_refl.
  - destruct (key x <? key y).
    + apply Permutation_refl.
    + rewrite perm_swap. apply perm_skip. exact IH.
Qed.

Lemma order_by_perm (l : list A) : Permutation (order_by key l) l.
Proof.
  induction l as [|x l IH]; simpl.
  - constructor.
  - rewrite insert_by_perm. apply perm_skip. exact IH.
Qed.

Lemma insert_by_sorted (x : A) (l : list A) :
  StronglySorted (fun x y => key x <= key y) l -> StronglySorted (fun x y => key x <= key y) (insert_by key x l).
Proof.
  induction 1 as [|y l Hs IH Hall]; simpl.
  - constructor; constructor.
  - destruct (key x <? key y) eqn:E.
    + apply Z.ltb_lt in E. constructor.
      * constructor; assumption.
      * constructor; [lia|].
        eapply Forall_impl; [|exact Hall].
        simpl. intros z Hz. lia.
    + apply Z.ltb_ge in E. constructor; [exact IH|].
      eapply Permutation_Forall; [symmetry; apply insert_by_perm|].
      constructor; assumption.
Qed.

Lemma order_by_sorted (l : list A) : StronglySorted (fun x y => key x <= key y) (order_by key l).
Proof.
  induction l as [|x l IH]; simpl.
  - constructor.
  - apply insert_by_sorted. exact IH.
Qed.

Lemma order_by_hd_in (l : list A) (x : A) :
  hd_error (order_by key l) = Some x -> In x l.
Proof.
  intros H. apply (Permutation_in x (order_by_perm l)).
  destruct (order_by key l); simpl in H; [discriminate|].
  injection H as ->. left. reflexivity.
Qed.

Lemma order_by_hd_none (l : list A) :
  hd_error (order_by key l) = None -> l = [].
Proof.
  intros H. destruct (order_by key l) eqn:E; [|discriminate].
  apply Permutation_nil. rewrite <- E. apply order_by_perm.
Qed.
End OrderByFacts.

(** C8. For every room and caller, the history query of [initializeChat]
    returns a list in non-decreasing [created_at] order that holds exactly
    the rows of the room the caller may see; no row is dropped for being
    soft-deleted: every visible row of the room is in the list as it is in
    the table, with its [deleted_at]. *)
Theorem select_messages_ascending_keeps_deleted (uid : UserId) (rid : RoomId) (d : Db) :
  StronglySorted (fun x y => m_created_at x <= m_created_at y)
                 (select_messages uid rid d)
  /\ Permutation (select_messages uid rid d)
       (filter (fun m => rls_select_message uid d m && Nat.eqb (m_room_id m) rid)
               (chat_messages d))
  /\ (forall m, In m (chat_messages d) -> m_room_id m = rid ->
                in_own_room uid d rid = true ->
                In m (select_messages uid rid d)).
Proof.
  unfold select_messages. split; [|split].
  - apply order_by_sorted.
  - apply order_by_perm.
  - intros m Hin Hroom Hown.
    eapply Permutation_in; [symmetry; apply order_by_perm|].
    apply filter_In. split; [exact Hin|].
    unfold rls_select_message. rewrite Hroom, Hown. simpl.
    apply Nat.eqb_refl.
Qed.

Lemma select_messages_ascending_keeps_deleted_witness :
  In (mkMsg (Some 1%nat) 0%nat "alice" "first" 20 None (Some 25))
     (select_messages "bob" 0%nat history_db).
Proof.
  apply (proj2 (proj2 (select_messages_ascending_keeps_deleted "bob" 0%nat history_db))).
  - simpl. right. left. reflexivity.
  - reflexivity.
  - reflexivity.
Defined.

(** ** Room resolution *)

Lemma sort_pair_comm (a b : UserId) : sort_pair a b = sort_pair b a.
Proof.
  unfold sort_pair.
  destruct (String.leb a b) eqn:E1, (String.leb b a) eqn:E2; try reflexivity.
  - rewrite (String.leb_antisym _ _ E1 E2). reflexivity.
  - destruct (String.leb_total a b); congruence.
Qed.

Lemma sort_pair_cases (a b : UserId) :
  sort_pair a b = (a, b) \/ sort_pair a b = (b, a).
Proof. unfold sort_pair. destruct (String.leb a b); auto. Qed.

Lemma sort_pair_inj (p1 p2 a b : UserId) :
  sort_pair p1 p2 = sort_pair a b ->
  (p1 = a /\ p2 = b) \/ (p1 = b /\ p2 = a).
Proof.
  intros H.
  destruct (sort_pair_cases p1 p2) as [E1|E1], (sort_pair_cases a b) as [E2|E2];
    rewrite E1, E2 in H; injection H; intros; subst; auto.
Qed.

Lemma pair_eqb_eq (p q : UserId * UserId) : pair_eqb p q = true <-> p = q.
Proof.
  destruct p as [p1 p2], q as [q1 q2]. unfold pair_eqb. simpl.
  rewrite andb_true_iff, !String.eqb_eq. split.
  - intros [-> ->]. reflexivity.
  - intros H. injection H. auto.
Qed.

Lemma room_matches_spec (a b : UserId) (r : ChatRoom) :
  room_matches a b r = true <->
  (r_participant1_id r = a /\ r_participant2_id r = b)
  \/ (r_participant1_id r = b /\ r_participant2_id r = a).
Proof.
  unfold room_matches.
  rewrite orb_true_iff, !andb_true_iff, !String.eqb_eq. reflexivity.
Qed.

Lemma room_matches_key (a b : UserId) (r : ChatRoom) :
  room_matches a b r = true <-> pair_key r = sort_pair a b.
Proof.
  rewrite room_matches_spec. unfold pair_key. split.
  - intros [[-> ->]|[-> ->]]; [reflexivity | apply sort_pair_comm].
  - apply sort_pair_inj.
Qed.

Lemma room_matches_sym (a b : UserId) (r : ChatRoom) :
  room_matches a b r = room_matches b a r.
Proof. unfold room_matches. apply orb_comm. Qed.

Lemma room_matches_sorted (a b : UserId) (r : ChatRoom) :
  room_matches (fst (sort_pair a b)) (snd (sort_pair a b)) r = room_matches a b r.
Proof.
  destruct (sort_pair_cases a b) as [E|E]; rewrite E; simpl;
    [reflexivity | apply room_matches_sym].
Qed.

Lemma visible_when_matching (uid a b : UserId) (r : ChatRoom) :
  uid = a \/ uid = b ->
  rls_select_room uid r && room_matches a b r = room_matches a b r.
Proof.
  intros Hu. destruct (room_matches a b r) eqn:E; [|apply andb_false_r].
  rewrite andb_true_r. unfold rls_select_room.
  apply room_matches_spec in E.
  apply orb_true_iff. rewrite !String.eqb_eq.
  destruct E as [[E1 E2]|[E1 E2]], Hu as [->| ->]; auto.
Qed.

Lemma filter_none (A : Type) (f : A -> bool) (l : list A) :
  (forall z, In z l -> f z = false) -> filter f l = [].
Proof.
  induction l as [|y l IH]; simpl; intros H; [reflexivity|].
  rewrite (H y (or_introl eq_refl)). apply IH.
  intros z Hz. apply H. right. exact Hz.
Qed.

Lemma unique_key_filter (a b : UserId) (l : list ChatRoom) (x : ChatRoom) :
  NoDup (map pair_key l) -> In x l -> room_matches a b x = true ->
  filter (room_matches a b) l = [x].
Proof.
  induction l as [|y l IH]; simpl; intros Hnd Hin Hx; [contradiction|].
  inversion Hnd as [|k ks Hnotin Hnd']; subst.
  assert (Hrest : forall z, In z l -> pair_key z <> pair_key y)
    by (intros z Hz E; apply Hnotin; rewrite <- E; apply in_map; exact Hz).
  apply room_matches_key in Hx.
  destruct Hin as [->|Hin].
  - apply room_matches_key in Hx. rewrite Hx. f_equal.
    apply filter_none. intros z Hz.
    destruct (room_matches a b z) eqn:Ez; [|reflexivity].
    exfalso. apply (Hrest z Hz).
    apply room_matches_key in Ez. apply room_matches_key in Hx. congruence.
  - destruct (room_matches a b y) eqn:Ey.
    + exfalso. apply (Hrest x Hin).
      apply room_matches_key in Ey. congruence.
    + apply IH; [assumption..|]. apply room_matches_key. exact Hx.
Qed.

Lemma blocks_sym (a b : UserId) (x : UserId * UserId) :
  blocks a b x = blocks b a x.
Proof. unfold blocks. apply orb_comm. Qed.

Lemma unblocked_sym (a b : UserId) (d : Db) : unblocked a b d -> unblocked b a d.
Proof.
  unfold unblocked. intros H. rewrite <- H. clear H.
  induction (blocked_users d) as [|x l IH]; simpl; [reflexivity|].
  rewrite IH, blocks_sym. reflexivity.
Qed.

Lemma existsb_filter_false (A : Type) (f g : A -> bool) (l : list A) :
  existsb f l = false -> existsb f (filter g l) = false.
Proof.
  induction l as [|x l IH]; simpl; intros H; [reflexivity|].
  apply orb_false_iff in H. destruct H as [Hx Hl].
  destruct (g x); simpl; [rewrite Hx|]; auto.
Qed.

(** The insert policy lets a participant create the room of two distinct
    users no block relates. *)
Lemma rls_insert_room_sorted (u o : UserId) (d : Db) :
  u <> o -> unblocked u o d ->
  rls_insert_room u (fst (sort_pair u o)) (snd (sort_pair u o)) d = true.
Proof.
  intros Hne Hub. unfold rls_insert_room.
  assert (Hb : existsb (blocks (fst (sort_pair u o)) (snd (sort_pair u o)))
                 (filter (rls_select_block u) (blocked_users d)) = false).
  { apply existsb_filter_false.
    destruct (sort_pair_cases u o) as [E|E]; rewrite E; simpl.
    - exact Hub.
    - apply unblocked_sym. exact Hub. }
  rewrite Hb. simpl. rewrite andb_true_r.
  destruct (sort_pair_cases u o) as [E|E]; rewrite E; simpl.
  - rewrite String.eqb_refl. simpl.
    apply negb_true_iff. apply String.eqb_neq. exact Hne.
  - rewrite String.eqb_refl, orb_true_r. simpl.
    apply negb_true_iff. apply String.eqb_neq. congruence.
Qed.

Lemma sort_pair_idem (u o : UserId) :
  sort_pair (fst (sort_pair u o)) (snd (sort_pair u o)) = sort_pair u o.
Proof.
  destruct (sort_pair_cases u o) as [E|E]; rewrite E; simpl.
  - exact E.
  - rewrite sort_pair_comm. exact E.
Qed.

Lemma recover_room_pair (u o : UserId) (d : Db) :
  recover_room u (fst (sort_pair u o)) (snd (sort_pair u o)) d
  = hd_error (rooms_of_pair u o d).
Proof.
  unfold recover_room, rooms_of_pair. f_equal. apply filter_ext.
  intros r. rewrite room_matches_sorted.
  apply visible_when_matching. left. reflexivity.
Qed.

Lemma find_room_some (u o : UserId) (d : Db) (r : ChatRoom) :
  find_room u u o d = Some r -> In r (chat_rooms d) /\ room_matches u o r = true.
Proof.
  unfold find_room. intros H. apply order_by_hd_in in H.
  apply filter_In in H. destruct H as [Hin H].
  apply andb_true_iff in H. tauto.
Qed.

Lemma find_room_none (u o : UserId) (d : Db) :
  find_room u u o d = None -> rooms_of_pair u o d = [].
Proof.
  unfold find_room, rooms_of_pair. intros H. apply order_by_hd_none in H.
  rewrite <- H. apply filter_ext. intros r. symmetry.
  apply visible_when_matching. left. reflexivity.
Qed.

Lemma pc_ok_mono (a b : UserId) (d d' : Db) (l : list ChatRoom) (pc : ResolvePc) :
  chat_rooms d' = chat_rooms d ++ l -> pc_ok a b d pc -> pc_ok a b d' pc.
Proof.
  intros E. destruct pc; simpl; auto.
  - unfold rooms_of_pair. rewrite E, filter_app.
    destruct (filter (room_matches a b) (chat_rooms d)); [tauto|]. discriminate.
  - intros [Hin Hm]. split; [|exact Hm]. rewrite E. apply in_or_app. auto.
Qed.

Lemma pc_ok_sym (a b : UserId) (d : Db) (pc : ResolvePc) :
  pc_ok a b d pc -> pc_ok b a d pc.
Proof.
  destruct pc; simpl; auto.
  - unfold rooms_of_pair.
    rewrite (filter_ext (room_matches a b) (room_matches b a)); [tauto|].
    intros r. apply room_matches_sym.
  - rewrite room_matches_sym. tauto.
Qed.

Lemma pc_safe_mono (a b : UserId) (d d' : Db) (l : list ChatRoom) (pc : ResolvePc) :
  chat_rooms d' = chat_rooms d ++ l -> pc_safe a b d pc -> pc_safe a b d' pc.
Proof.
  intros E. destruct pc; simpl; auto.
  intros [Hin Hm]. split; [|exact Hm]. rewrite E. apply in_or_app. auto.
Qed.

Lemma pc_safe_sym (a b : UserId) (d : Db) (pc : ResolvePc) :
  pc_safe a b d pc -> pc_safe b a d pc.
Proof. destruct pc; simpl; auto. rewrite room_matches_sym. tauto. Qed.

Lemma pc_ok_safe (a b : UserId) (d : Db) (pc : ResolvePc) :
  pc_ok a b d pc -> pc_safe a b d pc.
Proof. destruct pc; simpl; auto. Qed.

Lemma unique_index_empty : unique_index empty_db.
Proof. constructor. Qed.

(** The unique index survives every insert into [chat_rooms]. *)
Lemma insert_room_keeps_index (uid p1 p2 : UserId) (now : Time) (d : Db) :
  unique_index d -> unique_index (snd (insert_room uid p1 p2 now d)).
Proof.
  intros Hidx. unfold insert_room.
  destruct (negb (rls_insert_room uid p1 p2 d)); [exact Hidx|].
  destruct (existsb (fun r => pair_eqb (pair_key r) (sort_pair p1 p2)) (chat_rooms d)) eqn:Ex;
    [exact Hidx|].
  unfold unique_index. simpl. rewrite map_app. simpl.
  apply (Permutation_NoDup (Permutation_cons_append _ _)).
  constructor; [|exact Hidx].
  unfold pair_key at 1. simpl.
  intro Hin. apply in_map_iff in Hin. destruct Hin as [r [Hk Hin]].
  assert (existsb (fun r => pair_eqb (pair_key r) (sort_pair p1 p2)) (chat_rooms d) = true).
  { apply existsb_exists. exists r. split; [exact Hin|].
    apply pair_eqb_eq. exact Hk. }
  congruence.
Qed.

(** Under the index the pair has at most one row, and a row of the pair is
    the only one. *)
Lemma unique_index_one_room (a b : UserId) (d : Db) :
  unique_index d -> (List.length (rooms_of_pair a b d) <= 1)%nat.
Proof.
  intros Hidx. destruct (rooms_of_pair a b d) as [|r l] eqn:E; [simpl; lia|].
  assert (Hr : In r (rooms_of_pair a b d)) by (rewrite E; left; reflexivity).
  apply filter_In in Hr. destruct Hr as [Hin Hm].
  pose proof (@unique_key_filter a b _ _ Hidx Hin Hm) as U.
  unfold rooms_of_pair in E. rewrite U in E. injection E as El.
  rewrite <- El. simpl. lia.
Qed.

(** What an insert into [chat_rooms] answers and leaves: an error and the
    store as it was, or the new row, of the sorted pair, appended. *)
Lemma insert_room_cases (uid p1 p2 : UserId) (now : Time) (d : Db) :
  (exists e, insert_room uid p1 p2 now d = (inr e, d))
  \/ (exists r,
        insert_room uid p1 p2 now d = (inl r, with_new_room d (chat_rooms d ++ [r]))
        /\ r_participant1_id r = p1 /\ r_participant2_id r = p2).
Proof.
  unfold insert_room.
  destruct (negb (rls_insert_room uid p1 p2 d)); [left; eexists; reflexivity|].
  destruct (existsb _ (chat_rooms d)); [left; eexists; reflexivity|].
  right. eexists. split; [reflexivity|]. simpl. auto.
Qed.

(** One request of a resolution, lost or not, keeps the index and the
    block list, only appends to the table, leaves a resolved client with
    a row of the pair, and is one request less to make. *)
Lemma resolve_step_safe (u o : UserId) (now : Time) (fault : option PgError)
    (pc pc' : ResolvePc) (d d' : Db) :
  unique_index d -> pc_safe u o d pc ->
  resolve_step u o now fault pc d = (pc', d') ->
  unique_index d'
  /\ blocked_users d' = blocked_users d
  /\ (exists l, chat_rooms d' = chat_rooms d ++ l)
  /\ pc_safe u o d' pc'
  /\ (remaining pc' <= remaining pc - 1)%nat.
Proof.
  intros Hidx Hpc Hstep.
  assert (Hsame : forall q, pc_safe u o d q -> (remaining q <= remaining pc - 1)%nat ->
            (q, d) = (pc', d') ->
            unique_index d' /\ blocked_users d' = blocked_users d
            /\ (exists l, chat_rooms d' = chat_rooms d ++ l)
            /\ pc_safe u o d' pc' /\ (remaining pc' <= remaining pc - 1)%nat).
  { intros q Hq Hr E. injection E as <- <-.
    repeat split; auto. exists []. rewrite app_nil_r. reflexivity. }
  destruct pc; simpl in Hstep.
  - destruct fault as [e|]; simpl in Hstep.
    + apply (Hsame AtInsert); [exact I|simpl; lia|exact Hstep].
    + destruct (find_room u u o d) eqn:Ef.
      * apply (Hsame (Resolved c)); [|simpl; lia|exact Hstep].
        simpl. apply find_room_some. exact Ef.
      * apply (Hsame AtInsert); [exact I|simpl; lia|exact Hstep].
  - rewrite (surjective_pairing (sort_pair u o)) in Hstep.
    destruct fault as [e|]; simpl in Hstep.
    + destruct (String.eqb (pg_code e) "23505").
      * apply (Hsame AtRecover); [exact I|simpl; lia|exact Hstep].
      * apply (Hsame (Failed (PgErr e))); [exact I|simpl; lia|exact Hstep].
    + pose proof (insert_room_keeps_index u (fst (sort_pair u o)) (snd (sort_pair u o))
                    now Hidx) as Hkeep.
      destruct (insert_room_cases u (fst (sort_pair u o)) (snd (sort_pair u o)) now d)
        as [[e E]|[r (E & H1 & H2)]]; rewrite E in Hstep, Hkeep.
      * destruct (String.eqb (pg_code e) "23505").
        -- apply (Hsame AtRecover); [exact I|simpl; lia|exact Hstep].
        -- apply (Hsame (Failed (PgErr e))); [exact I|simpl; lia|exact Hstep].
      * injection Hstep as <- <-. simpl in *.
        repeat split.
        -- exact Hkeep.
        -- eexists. reflexivity.
        -- apply in_or_app. right. left. reflexivity.
        -- apply room_matches_key. unfold pair_key. rewrite H1, H2.
           apply sort_pair_idem.
        -- lia.
  - rewrite (surjective_pairing (sort_pair u o)) in Hstep.
    destruct fault as [e|]; simpl in Hstep.
    + apply (Hsame (Failed (JsErr "Failed to recover chat room after unique constraint violation")));
        [exact I|simpl; lia|exact Hstep].
    + rewrite recover_room_pair in Hstep.
      destruct (rooms_of_pair u o d) as [|r l] eqn:Er; simpl in Hstep.
      * apply (Hsame (Failed (JsErr "Failed to recover chat room after unique constraint violation")));
          [exact I|simpl; lia|exact Hstep].
      * apply (Hsame (Resolved r)); [|simpl; lia|exact Hstep].
        simpl. assert (Hr : In r (rooms_of_pair u o d)) by (rewrite Er; left; reflexivity).
        apply filter_In in Hr. exact Hr.
  - apply (Hsame (Resolved r)); [exact Hpc|simpl; lia|exact Hstep].
  - apply (Hsame (Failed e)); [exact I|simpl; lia|exact Hstep].
Qed.

(** A request that reaches the store, between users no block relates,
    moves the client to a stage it can justify: it never fails. *)
Lemma resolve_step_inv (u o : UserId) (now : Time) (pc pc' : ResolvePc) (d d' : Db) :
  u <> o -> unblocked u o d -> pc_ok u o d pc ->
  resolve_step u o now None pc d = (pc', d') ->
  (exists l, chat_rooms d' = chat_rooms d ++ l) -> pc_ok u o d' pc'.
Proof.
  intros Hne Hub Hpc Hstep [l Hl].
  destruct pc; simpl in Hstep.
  - destruct (find_room u u o d) eqn:Ef; injection Hstep as <- <-; simpl; [|exact I].
    apply find_room_some. exact Ef.
  - rewrite (surjective_pairing (sort_pair u o)) in Hstep. simpl in Hstep.
    unfold insert_room in Hstep.
    rewrite (rls_insert_room_sorted Hne Hub) in Hstep. simpl in Hstep.
    rewrite sort_pair_idem in Hstep.
    destruct (existsb (fun r => pair_eqb (pair_key r) (sort_pair u o)) (chat_rooms d)) eqn:Ex.
    + simpl in Hstep. injection Hstep as <- <-. simpl.
      apply existsb_exists in Ex. destruct Ex as [r [Hin Hk]].
      apply pair_eqb_eq, room_matches_key in Hk.
      intro Hnil.
      assert (Hr : In r (rooms_of_pair u o d)) by (apply filter_In; auto).
      rewrite Hnil in Hr. exact Hr.
    + injection Hstep as <- <-. simpl. split.
      * apply in_or_app. right. left. reflexivity.
      * apply room_matches_key. unfold pair_key. simpl. apply sort_pair_idem.
  - rewrite (surjective_pairing (sort_pair u o)) in Hstep. simpl in Hstep.
    rewrite recover_room_pair in Hstep. simpl in Hpc.
    destruct (rooms_of_pair u o d) as [|r l'] eqn:Er; [contradiction|].
    simpl in Hstep. injection Hstep as <- <-. simpl.
    assert (Hr : In r (rooms_of_pair u o d)) by (rewrite Er; left; reflexivity).
    apply filter_In in Hr. exact Hr.
  - injection Hstep as <- <-. exact Hpc.
  - contradiction.
Qed.

Lemma race_step_safe (a b : UserId) (turn : Turn) (c : Race) :
  race_safe a b c ->
  race_safe a b (race_step a b turn c)
  /\ blocked_users (race_db (race_step a b turn c)) = blocked_users (race_db c)
  /\ (exists l, chat_rooms (race_db (race_step a b turn c)) = chat_rooms (race_db c) ++ l)
  /\ (remaining (pc_a (race_step a b turn c))
        <= remaining (pc_a c) - (if turn_of_a turn then 1 else 0))%nat
  /\ (remaining (pc_b (race_step a b turn c))
        <= remaining (pc_b c) - (if turn_of_a turn then 0 else 1))%nat.
Proof.
  intros (Hidx & Ha & Hb).
  destruct turn as [first now fault]. unfold race_step. simpl. destruct first.
  - destruct (resolve_step a b now fault (pc_a c) (race_db c)) as [pc d] eqn:E.
    destruct (@resolve_step_safe a b now fault _ _ _ _ Hidx Ha E)
      as (Hidx' & Hbl & [l Hl] & Hpc & Hrem).
    simpl. split; [|split; [exact Hbl|split; [exists l; exact Hl|split; lia]]].
    split; [exact Hidx'|]. split; [exact Hpc|].
    eapply pc_safe_mono; eassumption.
  - destruct (resolve_step b a now fault (pc_b c) (race_db c)) as [pc d] eqn:E.
    destruct (@resolve_step_safe b a now fault _ _ _ _ Hidx (@pc_safe_sym a b _ _ Hb) E)
      as (Hidx' & Hbl & [l Hl] & Hpc & Hrem).
    simpl. split; [|split; [exact Hbl|split; [exists l; exact Hl|split; lia]]].
    split; [exact Hidx'|]. split; [|apply pc_safe_sym; exact Hpc].
    eapply pc_safe_mono; eassumption.
Qed.

Lemma race_safe_run (a b : UserId) (schedule : list Turn) (c : Race) :
  race_safe a b c ->
  race_safe a b (race a b schedule c)
  /\ (remaining (pc_a (race a b schedule c))
        <= remaining (pc_a c) - turns true schedule)%nat
  /\ (remaining (pc_b (race a b schedule c))
        <= remaining (pc_b c) - turns false schedule)%nat.
Proof.
  revert c.
  induction schedule as [|turn rest IH]; intros c Hinv.
  - unfold turns. simpl. split; [exact Hinv|]. split; lia.
  - simpl race.
    destruct (@race_step_safe a b turn c Hinv) as (Hinv' & _ & _ & Ha & Hb).
    destruct (IH _ Hinv') as (Hfin & Ha' & Hb').
    split; [exact Hfin|].
    unfold turns in *. simpl filter.
    destruct (turn_of_a turn); simpl in *; lia.
Qed.

Lemma race_inv_safe (a b : UserId) (c : Race) : race_inv a b c -> race_safe a b c.
Proof.
  intros (Hidx & _ & Ha & Hb). split; [exact Hidx|]. split; apply pc_ok_safe; assumption.
Qed.

Lemma race_step_inv (a b : UserId) (turn : Turn) (c : Race) :
  a <> b -> turn_fault turn = None -> race_inv a b c ->
  race_inv a b (race_step a b turn c).
Proof.
  intros Hne Hnone Hinv.
  destruct (@race_step_safe a b turn c (race_inv_safe Hinv))
    as ((Hidx' & _ & _) & Hbl & [l Hl] & _ & _).
  destruct Hinv as (Hidx & Hub & Ha & Hb).
  split; [exact Hidx'|]. split; [unfold unblocked; rewrite Hbl; exact Hub|].
  revert Hl. destruct turn as [first now fault]. simpl in Hnone. subst fault.
  unfold race_step. simpl. destruct first.
  - destruct (resolve_step a b now None (pc_a c) (race_db c)) as [pc d] eqn:E.
    simpl. intros Hl. split.
    + eapply resolve_step_inv; [exact Hne|exact Hub|exact Ha|exact E|exists l; exact Hl].
    + eapply pc_ok_mono; eassumption.
  - destruct (resolve_step b a now None (pc_b c) (race_db c)) as [pc d] eqn:E.
    simpl. intros Hl. split.
    + eapply pc_ok_mono; eassumption.
    + apply pc_ok_sym.
      eapply resolve_step_inv;
        [congruence|exact (unblocked_sym Hub)|exact (@pc_ok_sym a b _ _ Hb)|exact E|
         exists l; exact Hl].
Qed.

Lemma race_inv_run (a b : UserId) (schedule : list Turn) (c : Race) :
  a <> b -> lossless schedule -> race_inv a b c ->
  race_inv a b (race a b schedule c).
Proof.
  intros Hne Hall. revert c.
  induction Hall as [|turn rest Hnone Hrest IH]; intros c Hinv; simpl; [exact Hinv|].
  apply IH. apply race_step_inv; assumption.
Qed.

Lemma finished_resolved (a b : UserId) (d : Db) (pc : ResolvePc) :
  pc_ok a b d pc -> remaining pc = 0%nat ->
  exists r, pc = Resolved r /\ In r (chat_rooms d) /\ room_matches a b r = true.
Proof.
  destruct pc; simpl; intros H E; try discriminate; try contradiction.
  exists r. tauto.
Qed.

(** C1, as the code has it. For two distinct users and a store whose
    unique index holds, however the requests of the resolution of (a, b)
    and of (b, a) interleave:
    - whatever requests are lost and whoever has blocked whom, the table
      never holds more than one row for the unordered pair, a client that
      has resolved holds that row, and a client that has had its three
      turns has resolved or failed;
    - when no row of [blocked_users] relates the two users and no request
      is lost, once each client has had its three turns both have resolved
      to the same row, and that row is the only row of [chat_rooms] for
      the pair;
    - a client whose insert meets the unique index goes on to the recovery
      query, which returns the row that is there. *)
Theorem resolve_race_one_room (a b : UserId) (d : Db) :
  a <> b -> unique_index d ->
  (forall schedule,
      (List.length
         (rooms_of_pair a b (race_db (race a b schedule (mkRace AtFind AtFind d)))) <= 1)%nat
      /\ (forall r,
             pc_a (race a b schedule (mkRace AtFind AtFind d)) = Resolved r
             \/ pc_b (race a b schedule (mkRace AtFind AtFind d)) = Resolved r ->
             rooms_of_pair a b (race_db (race a b schedule (mkRace AtFind AtFind d)))
             = [r])
      /\ ((3 <= turns true schedule)%nat ->
          remaining (pc_a (race a b schedule (mkRace AtFind AtFind d))) = 0%nat)
      /\ ((3 <= turns false schedule)%nat ->
          remaining (pc_b (race a b schedule (mkRace AtFind AtFind d))) = 0%nat))
  /\ (unblocked a b d ->
      forall schedule,
        lossless schedule ->
        (3 <= turns true schedule)%nat -> (3 <= turns false schedule)%nat ->
        exists r,
          pc_a (race a b schedule (mkRace AtFind AtFind d)) = Resolved r
          /\ pc_b (race a b schedule (mkRace AtFind AtFind d)) = Resolved r
          /\ rooms_of_pair a b (race_db (race a b schedule (mkRace AtFind AtFind d)))
             = [r])
  /\ (unblocked a b d ->
      forall now r,
        rooms_of_pair a b d = [r] ->
        resolve_step a b now None AtInsert d = (AtRecover, d)
        /\ resolve_step a b now None AtRecover d = (Resolved r, d)).
Proof.
  intros Hne Hidx.
  assert (Hsafe0 : race_safe a b (mkRace AtFind AtFind d))
    by (repeat split; simpl; auto).
  split; [|split].
  - intros schedule.
    destruct (@race_safe_run a b schedule _ Hsafe0) as ((Hidx' & Hpa & Hpb) & Hra & Hrb).
    change (remaining (pc_a (mkRace AtFind AtFind d))) with 3%nat in Hra.
    change (remaining (pc_b (mkRace AtFind AtFind d))) with 3%nat in Hrb.
    split; [apply unique_index_one_room; exact Hidx'|].
    split; [|split; intros; lia].
    intros r [E|E].
    + rewrite E in Hpa. destruct Hpa as [Hin Hm].
      exact (@unique_key_filter a b _ _ Hidx' Hin Hm).
    + rewrite E in Hpb. destruct Hpb as [Hin Hm].
      exact (@unique_key_filter a b _ _ Hidx' Hin Hm).
  - intros Hub schedule Hall Hta Htb.
    assert (Hinv : race_inv a b (mkRace AtFind AtFind d))
      by (repeat split; simpl; auto).
    destruct (@race_safe_run a b schedule _ Hsafe0) as (_ & Hra & Hrb).
    destruct (@race_inv_run a b schedule _ Hne Hall Hinv) as (Hidx' & _ & Hpa & Hpb).
    change (remaining (pc_a (mkRace AtFind AtFind d))) with 3%nat in Hra.
    change (remaining (pc_b (mkRace AtFind AtFind d))) with 3%nat in Hrb.
    destruct (@finished_resolved a b _ _ Hpa) as (r1 & E1 & Hin1 & Hm1); [lia|].
    destruct (@finished_resolved a b _ _ Hpb) as (r2 & E2 & Hin2 & Hm2); [lia|].
    pose proof (@unique_key_filter a b _ _ Hidx' Hin1 Hm1) as U1.
    pose proof (@unique_key_filter a b _ _ Hidx' Hin2 Hm2) as U2.
    exists r1. rewrite E1, E2. unfold rooms_of_pair.
    repeat split; [|exact U1]. congruence.
  - intros Hub now r Hr.
    assert (Hin : In r (rooms_of_pair a b d)) by (rewrite Hr; left; reflexivity).
    apply filter_In in Hin. destruct Hin as [Hin Hm].
    split.
    + simpl. rewrite (surjective_pairing (sort_pair a b)). simpl.
      unfold insert_room.
      rewrite (rls_insert_room_sorted Hne Hub). simpl.
      rewrite sort_pair_idem.
      assert (Ex : existsb (fun r => pair_eqb (pair_key r) (sort_pair a b)) (chat_rooms d) = true).
      { apply existsb_exists. exists r. split; [exact Hin|].
        apply pair_eqb_eq, room_matches_key. exact Hm. }
      rewrite Ex. reflexivity.
    + simpl. rewrite (surjective_pairing (sort_pair a b)). simpl.
      rewrite recover_room_pair, Hr. reflexivity.
Qed.

Lemma resolve_race_one_room_witness :
  (exists r,
      pc_a (race "alice" "bob" alternating (mkRace AtFind AtFind empty_db)) = Resolved r
      /\ pc_b (race "alice" "bob" alternating (mkRace AtFind AtFind empty_db)) = Resolved r
      /\ rooms_of_pair "alice" "bob"
           (race_db (race "alice" "bob" alternating (mkRace AtFind AtFind empty_db))) = [r])
  /\ (List.length
        (rooms_of_pair "alice" "bob"
           (race_db (race "alice" "bob" insert_lost (mkRace AtFind AtFind empty_db))))
      <= 1)%nat.
Proof.
  destruct (@resolve_race_one_room "alice" "bob" empty_db) as (Hsafe & Hlive & _).
  - discriminate.
  - constructor.
  - split.
    + apply Hlive.
      * reflexivity.
      * repeat constructor.
      * vm_compute. apply le_n.
      * vm_compute. apply le_n.
    + apply (Hsafe insert_lost).
Defined.

(** C1 as stated fails: alice and bob are distinct users, but each has
    blocked the other; the insert policy rejects both creations with an
    error that is not a unique violation, both resolutions fail and no row
    exists for the pair. *)
Lemma resolve_race_blocked_no_room :
  "alice" <> "bob"
  /\ unique_index blocked_db
  /\ pc_a (race "alice" "bob" alternating (mkRace AtFind AtFind blocked_db))
     = Failed (PgErr RlsViolation)
  /\ pc_b (race "alice" "bob" alternating (mkRace AtFind AtFind blocked_db))
     = Failed (PgErr RlsViolation)
  /\ rooms_of_pair "alice" "bob"
       (race_db (race "alice" "bob" alternating (mkRace AtFind AtFind blocked_db))) = [].
Proof.
  split; [discriminate|]. split; [constructor|]. vm_compute. auto.
Qed.

(** With a request lost the race can end with a client that has given
    up: here the insert of the second client does not reach the store,
    the first client holds the room and the second has failed. *)
Lemma resolve_race_insert_lost :
  pc_a (race "alice" "bob" insert_lost (mkRace AtFind AtFind empty_db))
  = Resolved (mkRoom 0%nat "alice" "bob" 3)
  /\ pc_b (race "alice" "bob" insert_lost (mkRace AtFind AtFind empty_db))
     = Failed (PgErr NetworkError)
  /\ rooms_of_pair "alice" "bob"
       (race_db (race "alice" "bob" insert_lost (mkRace AtFind AtFind empty_db)))
     = [mkRoom 0%nat "alice" "bob" 3].
Proof. vm_compute. auto. Qed.

(** The resolution inside [initializeChat] is the run of the three steps
    of one client, each request with the outcome [net] holds for it:
    [resolveRoom] returns the room or raises the error the steps end with,
    and leaves the store they leave. *)
Lemma resolveRoom_follows_steps (u o : UserId) (now : Time) (w : World)
    (pc : ResolvePc) (d' : Db) :
  resolve_alone u o now (net w) (db w) = (pc, d') ->
  match pc with
  | Resolved r =>
      fst (resolveRoom u o now w) = Ret r /\ db (snd (resolveRoom u o now w)) = d'
  | Failed e =>
      fst (resolveRoom u o now w) = Throw e /\ db (snd (resolveRoom u o now w)) = d'
  | _ => False
  end.
Proof.
  destruct w as [d n c s t se]. simpl. intros H.
  unfold resolve_alone in H. unfold resolveRoom, bind, request, query, try_catch.
  simpl in *.
  destruct (sort_pair u o) as [p1 p2] eqn:Es.
  destruct n as [|f1 [|f2 [|f3 rest]]];
    repeat match goal with f : option PgError |- _ => destruct f as [[| |]|] end;
    unfold fault_at in H; simpl in *;
    try destruct (find_room u u o d) as [r|] eqn:Ef; simpl in *;
    try rewrite Es in *; unfold bind, request, query, try_catch; simpl in *;
    try destruct (insert_room u p1 p2 now d) as [[newRoom|[| |]] d1] eqn:Ei; simpl in *;
    try rewrite Es in *; unfold bind, request, query, try_catch; simpl in *;
    try destruct (recover_room u p1 p2 d) as [r0|] eqn:Er0; simpl in *;
    try destruct (recover_room u p1 p2 d1) as [r1|] eqn:Er1; simpl in *;
    try (injection H as <- <-); auto.
Qed.

(** ** The computations of the hook *)

Lemma keeps_ret (A : Type) (a : A) : keeps_client (ret a).
Proof. intros w. reflexivity. Qed.

Lemma keeps_throw (A : Type) (e : JsError) : keeps_client (@throw A e).
Proof. intros w. reflexivity. Qed.

Lemma keeps_bind (A B : Type) (m : M A) (k : A -> M B) :
  keeps_client m -> (forall a, keeps_client (k a)) -> keeps_client (bind m k).
Proof.
  intros Hm Hk w. unfold bind. specialize (Hm w).
  destruct (m w) as [[a|e] w1]; simpl in *.
  - rewrite Hk. exact Hm.
  - exact Hm.
Qed.

Lemma keeps_try_catch (A : Type) (m : M A) (h : JsError -> M A) :
  keeps_client m -> (forall e, keeps_client (h e)) -> keeps_client (try_catch m h).
Proof.
  intros Hm Hh w. unfold try_catch. specialize (Hm w).
  destruct (m w) as [[a|e] w1]; simpl in *.
  - exact Hm.
  - rewrite Hh. exact Hm.
Qed.

Lemma keeps_request (A : Type) (op : Db -> Response A * Db) :
  keeps_client (request op).
Proof.
  intros w. unfold request.
  destruct (net w) as [|[e|] rest]; [| reflexivity |];
    destruct (op (db w)); reflexivity.
Qed.

Lemma request_returns (A : Type) (op : Db -> Response A * Db) (w : World) :
  exists r, fst (request op w) = Ret r.
Proof.
  unfold request.
  destruct (net w) as [|[e|] rest]; [| eexists; reflexivity |];
    destruct (op (db w)); eexists; reflexivity.
Qed.

Lemma request_arrives (A : Type) (op : Db -> Response A * Db) (w : World) :
  next_request_arrives w ->
  request op w = (Ret (fst (op (db w))), set_db (snd (op (db w))) (set_net (tl (net w)) w)).
Proof.
  unfold next_request_arrives, request. destruct w as [d n c s t se]. simpl.
  destruct n as [|[e|] rest]; [| contradiction |]; intros _;
    destruct (op d); reflexivity.
Qed.

Lemma request_lost (A : Type) (op : Db -> Response A * Db) (w : World)
    (e : PgError) (rest : list (option PgError)) :
  net w = Some e :: rest ->
  request op w = (Ret (inr e), set_net rest w).
Proof. unfold request. intros ->. reflexivity. Qed.

Create HintDb client_side.
#[local] Hint Resolve keeps_ret keeps_throw keeps_request : client_side.

Ltac keeps_step :=
  first [ apply keeps_bind; [auto with client_side | intros ?]
        | apply keeps_try_catch; [| intros ?]
        | auto with client_side ].

Lemma keeps_resolveRoom (u o : UserId) (now : Time) :
  keeps_client (resolveRoom u o now).
Proof.
  unfold resolveRoom. keeps_step.
  destruct (data_or_null a); [keeps_step|].
  destruct (sort_pair u o) as [p1 p2]. keeps_step.
  - keeps_step. destruct a0; keeps_step.
  - destruct (String.eqb (error_code e) "23505"); keeps_step.
    destruct (data_or_null a0); keeps_step.
Qed.

(** ** Initialisation *)



(** ** Sending *)

(** When the insert fails, what is left of the list is what the filter of
    the rollback keeps of the list before the send. *)
Lemma sendMessage_failure (u : UserId) (content : string) (now : Time) (w : World)
    (r : ChatRoom) (e : PgError) (rest : list (option PgError)) :
  room (session w) = Some r ->
  net w = Some e :: rest ->
  fst (sendMessage (Some u) content now w) = Throw (PgErr e)
  /\ messages (session (world_after (sendMessage (Some u) content now) w))
     = filter (fun msg => negb (String.eqb (m_content msg) content)
                          || negb (String.eqb (m_sender_id msg) u))
              (messages (session w))
  /\ db (world_after (sendMessage (Some u) content now) w) = db w.
Proof.
  destruct w as [d n c s t [ro ms ty lo]]. simpl. intros -> ->.
  unfold world_after, sendMessage. simpl.
  unfold try_catch, bind, setMessages, request. simpl.
  rewrite filter_app. simpl. rewrite !String.eqb_refl. simpl.
  rewrite app_nil_r. auto.
Qed.

(** The rollback restores the list when no earlier entry has the text and
    the sender of the failed message. *)
Lemma sendMessage_failure_restores (u : UserId) (content : string) (now : Time)
    (w : World) (r : ChatRoom) (e : PgError) (rest : list (option PgError)) :
  room (session w) = Some r ->
  net w = Some e :: rest ->
  (forall msg, In msg (messages (session w)) ->
               m_content msg <> content \/ m_sender_id msg <> u) ->
  messages (session (world_after (sendMessage (Some u) content now) w))
  = messages (session w).
Proof.
  intros Hr Hn Hfresh.
  destruct (sendMessage_failure u content now w Hr Hn) as (_ & -> & _).
  induction (messages (session w)) as [|m l IH]; simpl; [reflexivity|].
  destruct (Hfresh m (or_introl eq_refl)) as [H|H];
    apply String.eqb_neq in H; rewrite H; simpl;
    rewrite ?orb_true_r; f_equal; apply IH; intros; apply Hfresh; right; assumption.
Qed.

(** C2, on the code. Alice has one confirmed message "hi" in her list and
    sends "hi" again; the insert is lost. The error is raised to the
    caller, but the rollback removes every entry with that text and sender:
    the confirmed message, still a row of the store, is gone from the list
    together with the optimistic one. *)
Theorem sendMessage_rollback_drops_confirmed :
  messages (session alice_ready) = [confirmed_hi]
  /\ fst (sendMessage (Some "alice") "hi" 300 (set_net [Some NetworkError] alice_ready))
     = Throw (PgErr NetworkError)
  /\ messages (session (world_after (sendMessage (Some "alice") "hi" 300)
                          (set_net [Some NetworkError] alice_ready)))
     = []
  /\ chat_messages (db (world_after (sendMessage (Some "alice") "hi" 300)
                          (set_net [Some NetworkError] alice_ready)))
     = [confirmed_hi].
Proof. vm_compute. auto. Qed.

(** What a successful send leaves: the optimistic entry at the end of the
    list and the new row at the end of the table. *)
Lemma sendMessage_success (u : UserId) (content : string) (now : Time) (w : World)
    (r : ChatRoom) :
  room (session w) = Some r ->
  next_request_arrives w ->
  in_own_room u (db w) (r_id r) = true ->
  sendMessage (Some u) content now w
  = (Ret tt,
     set_db (with_new_message (db w)
               (chat_messages (db w)
                ++ [mkMsg (Some (next_uuid (db w))) (r_id r) u content now None None]))
       (set_net (tl (net w))
          (set_session
             (mkSession (room (session w))
                (messages (session w) ++ [mkMsg None (r_id r) u content now None None])
                (isOtherUserTyping (session w)) (loading (session w)))
             w))).
Proof.
  intros Hr Hn Hown. unfold sendMessage. rewrite Hr.
  unfold try_catch, bind. unfold setMessages at 1. cbv beta iota zeta.
  rewrite request_arrives.
  - unfold insert_message, rls_insert_message. simpl.
    rewrite Hown, String.eqb_refl. simpl. rewrite ?Hr. reflexivity.
  - exact Hn.
Qed.

(** C3, as the code has it. The handler of the INSERT feed appends the
    pushed row to the list, whatever the list holds. After a send that
    reached the store, the store holds one new row for it, and the arrival
    of the event for that row leaves the list with two entries for the
    message: the optimistic one without id, then the row. *)
Theorem echo_is_appended (u other : UserId) (content : string) (now now' : Time)
    (w : World) (r : ChatRoom) :
  room (session w) = Some r ->
  next_request_arrives w ->
  in_own_room u (db w) (r_id r) = true ->
  In (MessagesChannel (r_id r)) (subs w) ->
  let row := mkMsg (Some (next_uuid (db w))) (r_id r) u content now None None in
  let w1 := world_after (sendMessage (Some u) content now) w in
  chat_messages (db w1) = chat_messages (db w) ++ [row]
  /\ messages (session (world_after (deliver other now' (MessageInserted row)) w1))
     = messages (session w) ++ [mkMsg None (r_id r) u content now None None; row].
Proof.
  intros Hr Hn Hown Hsub row w1. subst w1. unfold world_after.
  rewrite (sendMessage_success u content now w Hr Hn Hown). simpl.
  split; [reflexivity|].
  unfold deliver. simpl.
  assert (Hex : existsb (channel_eqb (MessagesChannel (r_id r))) (subs w) = true).
  { apply existsb_exists. exists (MessagesChannel (r_id r)).
    split; [exact Hsub|]. simpl. apply Nat.eqb_refl. }
  rewrite Hex. simpl. rewrite <- app_assoc. reflexivity.
Qed.

Lemma echo_is_appended_witness :
  let row := mkMsg (Some 2%nat) 0%nat "alice" "hello" 300 None None in
  let w1 := world_after (sendMessage (Some "alice") "hello" 300) alice_ready in
  chat_messages (db w1) = chat_messages (db alice_ready) ++ [row]
  /\ messages (session (world_after (deliver "bob" 310 (MessageInserted row)) w1))
     = messages (session alice_ready)
       ++ [mkMsg None 0%nat "alice" "hello" 300 None None; row].
Proof.
  apply (@echo_is_appended "alice" "bob" "hello" 300 310 alice_ready
           (mkRoom 0%nat "alice" "bob" 100)).
  - reflexivity.
  - exact I.
  - reflexivity.
  - simpl. left. reflexivity.
Defined.

(** C3 as stated fails: alice sends "hello" in a fresh chat; her list has
    one entry after the send and two after the event for the inserted row
    has arrived. *)
Lemma echo_duplicates_entry :
  messages (session (world_after (sendMessage (Some "alice") "hello" 300) alice_fresh))
  = [mkMsg None 0%nat "alice" "hello" 300 None None]
  /\ chat_messages (db (world_after (sendMessage (Some "alice") "hello" 300) alice_fresh))
     = [mkMsg (Some 1%nat) 0%nat "alice" "hello" 300 None None]
  /\ messages
       (session
          (world_after
             (deliver "bob" 310
                (MessageInserted (mkMsg (Some 1%nat) 0%nat "alice" "hello" 300 None None)))
             (world_after (sendMessage (Some "alice") "hello" 300) alice_fresh)))
     = [mkMsg None 0%nat "alice" "hello" 300 None None;
        mkMsg (Some 1%nat) 0%nat "alice" "hello" 300 None None].
Proof. vm_compute. auto. Qed.

(** ** Closing the view *)

Lemma initializeChat_returns (u o : UserId) (now : Time) (w : World) :
  exists c, fst (initializeChat u o now w) = Ret c.
Proof.
  unfold initializeChat, try_catch.
  match goal with |- context [match ?m w with _ => _ end] => destruct (m w) as [[c|e] w1] end.
  - exists c. reflexivity.
  - exists None. reflexivity.
Qed.

(** The effect hands no cleanup to React, with or without a user, whether
    the initialisation succeeds or not. *)
Lemma useChat_effect_no_cleanup (user : option UserId) (o : UserId) (now : Time)
    (w : World) :
  fst (useChat_effect user o now w) = Ret None.
Proof.
  destruct user as [u|]; [|reflexivity].
  unfold useChat_effect, bind.
  destruct (initializeChat_returns u o now w) as [c Hc].
  destruct (initializeChat u o now w) as [[c'|e] w1]; simpl in *.
  - reflexivity.
  - discriminate.
Qed.

(** So closing the view changes nothing: what was subscribed stays
    subscribed. *)
Lemma open_then_close_is_open (user : option UserId) (o : UserId) (now : Time)
    (w : World) :
  open_then_close user o now w = world_after (useChat_effect user o now) w.
Proof.
  unfold open_then_close, world_after.
  pose proof (useChat_effect_no_cleanup user o now w) as H.
  destruct (useChat_effect user o now w) as [res w1]. simpl in *.
  rewrite H. reflexivity.
Qed.

Lemma channel_eqb_eq (a b : Channel) : channel_eqb a b = true <-> a = b.
Proof.
  destruct a, b; simpl; rewrite ?Nat.eqb_eq; split; intros H;
    try discriminate; try (injection H as ->); subst; reflexivity.
Qed.

(** The function [initializeChat] builds would close both feeds, were it
    ever run. *)
Lemma run_cleanup_unsubscribes (c : Cleanup) (w : World) (ch : Channel) :
  In ch c -> ~ In ch (subs (world_after (run_cleanup c) w)).
Proof.
  revert w. induction c as [|x c IH]; intros w Hin; [contradiction|].
  unfold world_after in *. simpl. unfold bind, unsubscribe. simpl.
  assert (Hkeep : forall c' w', ~ In ch (subs w') -> ~ In ch (subs (snd (run_cleanup c' w')))).
  { clear. induction c' as [|y c' IHc]; intros w' Hn; [exact Hn|].
    simpl. unfold bind, unsubscribe. simpl. apply IHc. simpl.
    intro H. apply filter_In in H. tauto. }
  destruct Hin as [->|Hin].
  - apply Hkeep. simpl. intro H. apply filter_In in H. destruct H as [_ H].
    apply negb_true_iff in H.
    assert (channel_eqb ch ch = true) by (apply channel_eqb_eq; reflexivity).
    congruence.
  - apply IH. exact Hin.
Qed.

(** C4, on the code. Whoever opens a chat, with whom and in whatever
    state of the store, the effect returns nothing to React, so closing the
    view runs nothing and the subscriptions are those the opening left.
    For alice opening the chat with bob and closing it: the initialisation
    has built the function that unsubscribes both feeds, the effect has not
    returned it, and both channels are still subscribed after closing. *)
Theorem close_view_leaves_feeds_open (user : option UserId) (otherUserId : UserId)
    (now : Time) (w : World) :
  fst (useChat_effect user otherUserId now w) = Ret None
  /\ subs (open_then_close user otherUserId now w)
     = subs (world_after (useChat_effect user otherUserId now) w)
  /\ fst (initializeChat "alice" "bob" 100 (initial_world empty_db))
     = Ret (Some [MessagesChannel 0%nat; TypingChannel 0%nat])
  /\ fst (useChat_effect (Some "alice") "bob" 100 (initial_world empty_db)) = Ret None
  /\ subs (open_then_close (Some "alice") "bob" 100 (initial_world empty_db))
     = [MessagesChannel 0%nat; TypingChannel 0%nat].
Proof.
  split; [apply useChat_effect_no_cleanup|].
  split; [rewrite open_then_close_is_open; reflexivity|].
  vm_compute. auto.
Qed.

(** ** Read and delete marks *)

Lemma Forall2_same (A : Type) (R : A -> A -> Prop) (l : list A) :
  (forall x, R x x) -> Forall2 R l l.
Proof. intros H. induction l; constructor; auto. Qed.

Lemma Forall2_map_self (A : Type) (R : A -> A -> Prop) (f : A -> A) (l : list A) :
  (forall x, R x (f x)) -> Forall2 R l (map f l).
Proof. intros H. induction l; simpl; constructor; auto. Qed.

Lemma update_messages_rows (uid : UserId) (filt : ChatMessage -> bool)
    (upd : ChatMessage -> ChatMessage) (d : Db) :
  Forall2 (row_change uid filt upd)
          (chat_messages d) (chat_messages (snd (update_messages uid filt upd d))).
Proof.
  unfold update_messages.
  destruct (forallb _ (chat_messages d)); simpl.
  - apply Forall2_map_self. intros m. unfold row_change.
    destruct (filt m) eqn:Ef, (rls_update_using uid m) eqn:Eu; simpl; auto.
  - apply Forall2_same. left. reflexivity.
Qed.

(** An update request of the hook: its result is not read, nothing is
    raised or logged, and the rows change as the store allows. *)
Lemma update_request (u : UserId) (filt : ChatMessage -> bool)
    (upd : ChatMessage -> ChatMessage) (label : string) (w : World) :
  exists w',
    try_catch (request (update_messages u filt upd) ;; ret tt)
              (fun error => console_error label error) w
    = (Ret tt, w')
    /\ client_side w' = client_side w
    /\ Forall2 (row_change u filt upd) (chat_messages (db w)) (chat_messages (db w'))
    /\ (next_request_arrives w -> db w' = snd (update_messages u filt upd (db w))).
Proof.
  unfold try_catch, bind, request, next_request_arrives.
  destruct w as [d n c s t se]. simpl.
  pose proof (update_messages_rows u filt upd d) as Hrows.
  destruct n as [|[e|] rest]; simpl.
  - destruct (update_messages u filt upd d) as [res d'] eqn:E. simpl in *.
    eexists. split; [reflexivity|]. simpl. auto.
  - eexists. split; [reflexivity|]. simpl. repeat split.
    + apply Forall2_same. left. reflexivity.
    + contradiction.
  - destruct (update_messages u filt upd d) as [res d'] eqn:E. simpl in *.
    eexists. split; [reflexivity|]. simpl. auto.
Qed.

(** What [markAsRead] does for any caller and any [otherUserId]: it
    raises nothing and logs nothing. Every row of the store stays in its
    place; a row it changes has the id asked for and [otherUserId] as its
    sender, and the change is [read_at] set to the time of this call. So a
    [read_at] that was set is never null afterwards. *)
Lemma markAsRead_only_marks (user : option UserId) (other : UserId)
    (messageId : MsgId) (now : Time) (w : World) :
  exists w',
    markAsRead user other messageId now w = (Ret tt, w')
    /\ client_side w' = client_side w
    /\ Forall2 (read_change other messageId now)
               (chat_messages (db w)) (chat_messages (db w'))
    /\ Forall2 (fun m m' => m_read_at m <> None -> m_read_at m' <> None)
               (chat_messages (db w)) (chat_messages (db w')).
Proof.
  assert (Hweak : forall l l', Forall2 (read_change other messageId now) l l' ->
            Forall2 (fun m m' => m_read_at m <> None -> m_read_at m' <> None) l l').
  { intros l l' H. eapply Forall2_impl; [|exact H].
    intros m m' [->|[-> _]]; [auto|]. simpl. discriminate. }
  destruct user as [u|].
  - unfold markAsRead.
    destruct (update_request u
                (fun m => has_id messageId m && String.eqb (m_sender_id m) other)
                (set_read_at now) "Error marking message as read:" w)
      as (w' & E & Hc & Hrows & _).
    exists w'. split; [exact E|]. split; [exact Hc|].
    assert (Hr : Forall2 (read_change other messageId now)
                   (chat_messages (db w)) (chat_messages (db w'))).
    { eapply Forall2_impl; [|exact Hrows].
      intros m m' [->|(-> & Hf & _)]; [left; reflexivity|].
      right. apply andb_true_iff in Hf. destruct Hf as [Hid Hs].
      apply String.eqb_eq in Hs. auto. }
    split; [exact Hr | apply Hweak; exact Hr].
  - exists w. split; [reflexivity|]. split; [reflexivity|].
    assert (Hr : Forall2 (read_change other messageId now)
                   (chat_messages (db w)) (chat_messages (db w)))
      by (apply Forall2_same; left; reflexivity).
    split; [exact Hr | apply Hweak; exact Hr].
Qed.

(** A chat is between two different users. Were the hook opened by alice
    on her own id and asked to mark her own, deleted, message, the store
    would apply the update, and a second call would replace the value of
    the first: the filter on [otherUserId] keeps the sender out only as
    long as the two ids differ. *)
Lemma markAsRead_overwrites :
  chat_messages
    (db (world_after (markAsRead (Some "alice") "alice" 1%nat 200)
           (initial_world own_deleted_db)))
  = [mkMsg (Some 1%nat) 0%nat "alice" "hi" 150 (Some 200) (Some 160)]
  /\ chat_messages
       (db (world_after (markAsRead (Some "alice") "alice" 1%nat 300)
              (world_after (markAsRead (Some "alice") "alice" 1%nat 200)
                 (initial_world own_deleted_db))))
     = [mkMsg (Some 1%nat) 0%nat "alice" "hi" 150 (Some 300) (Some 160)].
Proof. vm_compute. auto. Qed.

(** The update policy of the table selects rows of the caller only, and
    [markAsRead] asks for rows of the other user: between two different
    users the request changes no row. *)
Lemma markAsRead_of_other_changes_nothing (u other : UserId) (messageId : MsgId)
    (now : Time) (w : World) :
  u <> other ->
  chat_messages (db (world_after (markAsRead (Some u) other messageId now) w))
  = chat_messages (db w).
Proof.
  intros Hne. unfold world_after, markAsRead.
  destruct (update_request u
              (fun m => has_id messageId m && String.eqb (m_sender_id m) other)
              (set_read_at now) "Error marking message as read:" w)
    as (w' & E & _ & Hrows & _).
  rewrite E. simpl.
  induction Hrows as [|m m' l l' H Hl IH]; [reflexivity|].
  f_equal; [|exact IH].
  destruct H as [->|(_ & Hf & Hu)]; [reflexivity|]. exfalso.
  apply andb_true_iff in Hf. destruct Hf as [_ Hs].
  apply String.eqb_eq in Hs. apply String.eqb_eq in Hu. congruence.
Qed.



Lemma update_marks_in (uid : UserId) (filt : ChatMessage -> bool)
    (upd : ChatMessage -> ChatMessage) (d : Db) (m : ChatMessage) :
  (forall x, rls_update_check uid (upd x) = rls_update_using uid x) ->
  In m (chat_messages d) -> filt m = true -> rls_update_using uid m = true ->
  In (upd m) (chat_messages (snd (update_messages uid filt upd d))).
Proof.
  intros Hcheck Hin Hf Hu. unfold update_messages.
  assert (Hall : forallb (fun x => negb (filt x && rls_update_using uid x)
                                   || rls_update_check uid (upd x))
                         (chat_messages d) = true).
  { apply forallb_forall. intros x _. rewrite Hcheck.
    destruct (filt x), (rls_update_using uid x); reflexivity. }
  rewrite Hall. simpl.
  apply in_map_iff. exists m. rewrite Hf, Hu. auto.
Qed.

(** C7, as the code has it. For a message of the store with the id asked
    for, [deleteMessage] raises nothing and logs nothing, whoever calls it.
    Every row stays in its place; a row it changes has the caller as its
    sender, and the change is [deleted_at] set to the time of the call. So
    the request of a user who is not the sender leaves the message as it
    was, without any error; the request of the sender, when it reaches the
    store, leaves the row in the table with [deleted_at] set. *)
Theorem deleteMessage_silent_or_marks (u : UserId) (messageId : MsgId) (now : Time)
    (w : World) (m : ChatMessage) :
  In m (chat_messages (db w)) -> has_id messageId m = true ->
  exists w',
    deleteMessage (Some u) messageId now w = (Ret tt, w')
    /\ client_side w' = client_side w
    /\ Forall2 (delete_change u messageId now)
               (chat_messages (db w)) (chat_messages (db w'))
    /\ (m_sender_id m <> u -> In m (chat_messages (db w')))
    /\ (m_sender_id m = u -> next_request_arrives w ->
        In (set_deleted_at now m) (chat_messages (db w'))).
Proof.
  intros Hin Hid. unfold deleteMessage.
  destruct (update_request u
              (fun m => has_id messageId m && String.eqb (m_sender_id m) u)
              (set_deleted_at now) "Error deleting message:" w)
    as (w' & E & Hc & Hrows & Harr).
  exists w'. split; [exact E|]. split; [exact Hc|].
  assert (Hr : Forall2 (delete_change u messageId now)
                 (chat_messages (db w)) (chat_messages (db w'))).
  { eapply Forall2_impl; [|exact Hrows].
    intros x x' [->|(-> & Hf & _)]; [left; reflexivity|].
    right. apply andb_true_iff in Hf. destruct Hf as [Hi Hs].
    apply String.eqb_eq in Hs. auto. }
  split; [exact Hr|]. split.
  - intros Hne. clear - Hr Hin Hne.
    induction Hr as [|x x' l l' H Hl IH]; [contradiction|].
    destruct Hin as [->|Hin].
    + left. destruct H as [->|(_ & _ & Hs)]; [reflexivity | contradiction].
    + right. apply IH. exact Hin.
  - intros Hs Hn. rewrite (Harr Hn).
    apply update_marks_in.
    + intros x. unfold rls_update_check, rls_update_using. reflexivity.
    + exact Hin.
    + rewrite Hid, Hs. simpl. apply String.eqb_refl.
    + unfold rls_update_using. rewrite Hs. apply String.eqb_refl.
Qed.

Lemma deleteMessage_silent_or_marks_witness :
  exists w',
    deleteMessage (Some "alice") 1%nat 300 (initial_world hi_db) = (Ret tt, w')
    /\ In (set_deleted_at 300 confirmed_hi) (chat_messages (db w')).
Proof.
  destruct (@deleteMessage_silent_or_marks "alice" 1%nat 300 (initial_world hi_db)
              confirmed_hi) as (w' & E & _ & _ & _ & Hs).
  - simpl. left. reflexivity.
  - reflexivity.
  - exists w'. split; [exact E|]. apply Hs; [reflexivity | exact I].
Defined.

(** C7 as stated fails: bob asks to delete alice's message. The request
    matches no row and ends like any other: no error reaches the caller or
    the console, and the message is as before. *)
Lemma deleteMessage_by_other_is_silent :
  fst (deleteMessage (Some "bob") 1%nat 300 (initial_world hi_db)) = Ret tt
  /\ console (world_after (deleteMessage (Some "bob") 1%nat 300) (initial_world hi_db)) = []
  /\ chat_messages (db (world_after (deleteMessage (Some "bob") 1%nat 300)
                          (initial_world hi_db)))
     = [confirmed_hi].
Proof. vm_compute. auto. Qed.

(** ** The typing indicator *)

Lemma run_timers_inv (t limit : Time) (w : World) :
  typing_has_timer w -> Forall (fun due => due <= limit) (timers w) ->
  typing_has_timer (world_after (run_timers t) w)
  /\ Forall (fun due => due <= limit) (timers (world_after (run_timers t) w)).
Proof.
  intros Hty Hdue. unfold world_after, run_timers.
  destruct (filter (fun due => due <=? t) (timers w)) eqn:E; simpl.
  - auto.
  - split.
    + unfold typing_has_timer. simpl. discriminate.
    + apply Forall_forall. intros x Hx. apply filter_In in Hx.
      rewrite Forall_forall in Hdue. apply Hdue. tauto.
Qed.

Lemma deliver_inv (other : UserId) (t limit : Time) (ev : RtEvent) (w : World) :
  (sets_indicator other ev = true -> t + 3000 <= limit) ->
  typing_has_timer w -> Forall (fun due => due <= limit) (timers w) ->
  typing_has_timer (world_after (deliver other t ev) w)
  /\ Forall (fun due => due <= limit) (timers (world_after (deliver other t ev) w)).
Proof.
  intros Ht Hty Hdue. unfold world_after, deliver.
  destruct ev as [row|rid [ti|]].
  - destruct (existsb _ (subs w)); simpl; auto.
  - destruct (existsb _ (subs w)); simpl; auto.
    unfold on_typing_event. simpl in Ht.
    destruct (String.eqb (t_user_id ti) other); simpl; auto.
    specialize (Ht eq_refl).
    split.
    + unfold typing_has_timer. simpl. intros _.
      destruct (timers w); discriminate.
    + apply Forall_app. split; [exact Hdue|]. constructor; [exact Ht|constructor].
  - destruct (existsb _ (subs w)); simpl; auto.
Qed.

Lemma run_events_inv (other : UserId) (limit : Time) (trace : list (Time * RtEvent))
    (w : World) :
  Forall (fun ev => sets_indicator other (snd ev) = true -> fst ev + 3000 <= limit)
         trace ->
  typing_has_timer w -> Forall (fun due => due <= limit) (timers w) ->
  typing_has_timer (run_events other trace w)
  /\ Forall (fun due => due <= limit) (timers (run_events other trace w)).
Proof.
  revert w. induction trace as [|[t ev] rest IH]; intros w Htr Hty Hdue; simpl.
  - auto.
  - inversion Htr as [|x l Hx Hl]; subst. simpl in Hx.
    destruct (@run_timers_inv t limit w Hty Hdue) as [Hty1 Hdue1].
    destruct (@deliver_inv other t limit ev _ Hx Hty1 Hdue1) as [Hty2 Hdue2].
    apply IH; assumption.
Qed.

(** Opening the chat neither arms a timer nor touches the indicator. *)
Lemma initializeChat_keeps_indicator (u o : UserId) (now : Time) (w : World) :
  timers (world_after (initializeChat u o now) w) = timers w
  /\ isOtherUserTyping (session (world_after (initializeChat u o now) w))
     = isOtherUserTyping (session w).
Proof.
  unfold world_after, initializeChat, try_catch, bind.
  pose proof (keeps_resolveRoom u o now w) as Hk. unfold client_side in Hk.
  destruct (resolveRoom u o now w) as [[r|e] w1]; simpl in Hk;
    injection Hk as _ _ Ht Hs.
  - unfold setRoom, request. destruct w1 as [d n c sb t se]. simpl in *. subst t se.
    destruct n as [|[e|] rest]; simpl;
      try destruct (query (select_messages u (r_id r)) d) as [[msgs|e'] d'];
      simpl; auto.
  - simpl. rewrite Ht, Hs. auto.
Qed.

(** C9. A session is opened once, on the other user. Whatever events are
    pushed to it afterwards, once every event that turned the indicator on
    is older than the expiry window, the indicator is off: each of them
    armed a timer of three seconds, and by then all of these have fired. No
    DELETE event and no call of the other user is needed for that, and
    other events may arrive in between. *)
Theorem typing_indicator_expires (u other : UserId) (now : Time) (w0 : World)
    (trace : list (Time * RtEvent)) (t_obs : Time) :
  subs w0 = [] ->
  timers w0 = [] ->
  isOtherUserTyping (session w0) = false ->
  Forall (fun ev => sets_indicator other (snd ev) = true ->
                    fst ev + passive_expiry_window < t_obs) trace ->
  isOtherUserTyping
    (session (world_after (run_timers t_obs)
                (run_events other trace
                   (world_after (initializeChat u other now) w0)))) = false.
Proof.
  intros _ Htm Hoff Htr.
  destruct (initializeChat_keeps_indicator u other now w0) as [Ht Hs].
  set (w := world_after (initializeChat u other now) w0) in *.
  assert (Hty : typing_has_timer w).
  { unfold typing_has_timer. rewrite Hs, Hoff. discriminate. }
  assert (Hdue : Forall (fun due => due <= t_obs) (timers w)).
  { rewrite Ht, Htm. constructor. }
  assert (Htr' : Forall (fun ev => sets_indicator other (snd ev) = true ->
                                  fst ev + 3000 <= t_obs) trace).
  { eapply Forall_impl; [|exact Htr]. unfold passive_expiry_window.
    intros ev H Hse. specialize (H Hse). lia. }
  destruct (@run_events_inv other t_obs trace w Htr' Hty Hdue) as [Hty' Hdue'].
  set (w1 := run_events other trace w) in *.
  unfold world_after at 1. unfold run_timers.
  destruct (filter (fun due => due <=? t_obs) (timers w1)) eqn:E; simpl.
  - destruct (isOtherUserTyping (session w1)) eqn:Ety; [|reflexivity].
    exfalso. specialize (Hty' Ety).
    destruct (timers w1) as [|x l] eqn:Et; [apply Hty'; reflexivity|].
    inversion Hdue' as [|y l' Hy Hl]; subst.
    simpl in E. apply Z.leb_le in Hy. rewrite Hy in E. discriminate.
  - reflexivity.
Qed.

Lemma typing_indicator_expires_witness :
  isOtherUserTyping
    (session (run_events "bob" (firstn 1 bob_types_once)
                (world_after (initializeChat "alice" "bob" 100)
                   (initial_world empty_db)))) = true
  /\ isOtherUserTyping
       (session (world_after (run_timers 11001)
                   (run_events "bob" bob_types_once
                      (world_after (initializeChat "alice" "bob" 100)
                         (initial_world empty_db))))) = false.
Proof.
  split; [reflexivity|].
  apply (@typing_indicator_expires "alice" "bob" 100 (initial_world empty_db)
           bob_types_once 11001).
  - reflexivity.
  - reflexivity.
  - reflexivity.
  - constructor; [intros _; vm_compute; reflexivity|].
    constructor; [intros H; vm_compute in H; discriminate | constructor].
Defined.

(** ** Guards *)

(** C10. Without a signed-in user each of the four operations returns at
    once: the result is the plain return, and the world afterwards is the
    world before, so no request was made, nothing was logged and no state
    cell changed. [sendMessage] and [setTyping] do the same while the room
    is not set. *)
Theorem guards_are_silent (user : option UserId) (other : UserId) (content : string)
    (isTyping : bool) (messageId : MsgId) (now server_now : Time) (w : World) :
  user = None \/ room (session w) = None ->
  sendMessage user content now w = (Ret tt, w)
  /\ setTyping user isTyping now server_now w = (Ret tt, w)
  /\ (user = None ->
      markAsRead user other messageId now w = (Ret tt, w)
      /\ deleteMessage user messageId now w = (Ret tt, w)).
Proof.
  intros H. unfold sendMessage, setTyping.
  destruct H as [->|Hr].
  - destruct (room (session w)); repeat split; reflexivity.
  - rewrite Hr. repeat split; try reflexivity; subst; reflexivity.
Qed.

Lemma guards_are_silent_witness :
  sendMessage None "hello" 300 alice_ready = (Ret tt, alice_ready)
  /\ setTyping None true 300 305 alice_ready = (Ret tt, alice_ready)
  /\ markAsRead None "bob" 1%nat 300 alice_ready = (Ret tt, alice_ready)
  /\ deleteMessage None 1%nat 300 alice_ready = (Ret tt, alice_ready).
Proof.
  destruct (@guards_are_silent None "bob" "hello" true 1%nat 300 305 alice_ready
              (or_introl eq_refl)) as (Hs & Ht & Hrd).
  destruct (Hrd eq_refl) as [Hr Hd].
  repeat split; assumption.
Defined.

(** * Further properties of the chat module *)

(** ** One write at most *)

Lemma ro_ret (A : Type) (a : A) : reads_only (ret a).
Proof. intros w. reflexivity. Qed.

Lemma ro_throw (A : Type) (e : JsError) : reads_only (@throw A e).
Proof. intros w. reflexivity. Qed.

Lemma ro_bind (A B : Type) (m : M A) (k : A -> M B) :
  reads_only m -> (forall a, reads_only (k a)) -> reads_only (bind m k).
Proof.
  intros Hm Hk w. unfold bind. specialize (Hm w).
  destruct (m w) as [[a|e] w1]; simpl in *; [rewrite Hk|]; exact Hm.
Qed.

Lemma ro_try_catch (A : Type) (m : M A) (h : JsError -> M A) :
  reads_only m -> (forall e, reads_only (h e)) -> reads_only (try_catch m h).
Proof.
  intros Hm Hh w. unfold try_catch. specialize (Hm w).
  destruct (m w) as [[a|e] w1]; simpl in *; [|rewrite Hh]; exact Hm.
Qed.

Lemma ro_query (A : Type) (q : Db -> A) : reads_only (request (query q)).
Proof.
  intros w. unfold request, query. destruct (net w) as [|[e|] rest]; reflexivity.
Qed.

Lemma ro_console_error (label : string) (e : JsError) : reads_only (console_error label e).
Proof. intros w. reflexivity. Qed.

Lemma ro_setRoom (r : ChatRoom) : reads_only (setRoom r).
Proof. intros w. reflexivity. Qed.

Lemma ro_setMessages (f : list ChatMessage -> list ChatMessage) : reads_only (setMessages f).
Proof. intros w. reflexivity. Qed.

Lemma ro_setLoading (b : bool) : reads_only (setLoading b).
Proof. intros w. reflexivity. Qed.

Lemma ro_subscribe (c : Channel) : reads_only (subscribe c).
Proof. intros w. reflexivity. Qed.

Lemma wo_reads (A : Type) (m : M A) : reads_only m -> writes_once m.
Proof. intros H w. left. apply H. Qed.

Lemma wo_bind_l (A B : Type) (m : M A) (k : A -> M B) :
  writes_once m -> (forall a, reads_only (k a)) -> writes_once (bind m k).
Proof.
  intros Hm Hk w. unfold bind. specialize (Hm w).
  destruct (m w) as [[a|e] w1]; simpl in *; [rewrite Hk|]; exact Hm.
Qed.

Lemma wo_bind_r (A B : Type) (m : M A) (k : A -> M B) :
  reads_only m -> (forall a, writes_once (k a)) -> writes_once (bind m k).
Proof.
  intros Hm Hk w. unfold bind. specialize (Hm w).
  destruct (m w) as [[a|e] w1]; simpl in *.
  - rewrite <- Hm. apply Hk.
  - left. exact Hm.
Qed.

Lemma wo_try_l (A : Type) (m : M A) (h : JsError -> M A) :
  writes_once m -> (forall e, reads_only (h e)) -> writes_once (try_catch m h).
Proof.
  intros Hm Hh w. unfold try_catch. specialize (Hm w).
  destruct (m w) as [[a|e] w1]; simpl in *; [|rewrite Hh]; exact Hm.
Qed.

Lemma wo_try_r (A : Type) (m : M A) (h : JsError -> M A) :
  reads_only m -> (forall e, writes_once (h e)) -> writes_once (try_catch m h).
Proof.
  intros Hm Hh w. unfold try_catch. specialize (Hm w).
  destruct (m w) as [[a|e] w1]; simpl in *.
  - left. exact Hm.
  - rewrite <- Hm. apply Hh.
Qed.

Lemma wo_request (A : Type) (op : Db -> Response A * Db) :
  (forall d, HookWrite d (snd (op d))) -> writes_once (request op).
Proof.
  intros Hop w. unfold request.
  destruct (net w) as [|[e|] rest]; [| left; reflexivity |];
    specialize (Hop (db w)); destruct (op (db w)); right; exact Hop.
Qed.

Create HintDb store.
#[local] Hint Resolve ro_ret ro_throw ro_query ro_console_error ro_setRoom
  ro_setMessages ro_setLoading ro_subscribe : store.

Ltac ro_step :=
  repeat first [ apply ro_bind; [| intros ?]
               | apply ro_try_catch; [| intros ?]
               | solve [auto with store] ].

Lemma wo_resolveRoom (u o : UserId) (now : Time) : writes_once (resolveRoom u o now).
Proof.
  unfold resolveRoom. apply wo_bind_r; [auto with store|].
  intros existing. destruct (data_or_null existing); [apply wo_reads; auto with store|].
  rewrite (surjective_pairing (sort_pair u o)).
  apply wo_try_l.
  - apply wo_bind_l.
    + apply wo_request. intros d. apply write_room.
    + intros [newRoom|createError]; auto with store.
  - intros e. destruct (String.eqb (error_code e) "23505"); [|auto with store].
    ro_step. destruct (data_or_null a); auto with store.
Qed.

Lemma wo_initializeChat (u o : UserId) (now : Time) :
  writes_once (initializeChat u o now).
Proof.
  unfold initializeChat. apply wo_try_l.
  - apply wo_bind_l; [apply wo_resolveRoom|].
    intros r. ro_step. destruct a0; ro_step.
  - intros e. ro_step.
Qed.

Lemma wo_sendMessage (user : option UserId) (content : string) (now : Time) :
  writes_once (sendMessage user content now).
Proof.
  intros w. unfold sendMessage.
  destruct (room (session w)) as [r|]; [|left; reflexivity].
  destruct user as [u|]; [|left; reflexivity].
  revert w. apply wo_try_l; [|intros e; ro_step].
  apply wo_bind_r; [auto with store|]. intros _.
  apply wo_bind_l.
  - apply wo_request. intros d. apply write_message.
  - intros [row|err]; ro_step.
Qed.

Lemma wo_setTyping (user : option UserId) (isTyping : bool) (now server_now : Time) :
  writes_once (setTyping user isTyping now server_now).
Proof.
  intros w. unfold setTyping.
  destruct (room (session w)) as [r|]; [|left; reflexivity].
  destruct user as [u|]; [|left; reflexivity].
  revert w. apply wo_try_l; [|intros e; ro_step].
  destruct isTyping; (apply wo_bind_l; [apply wo_request; intros d | intros ?; ro_step]).
  - apply write_typing_on.
  - apply write_typing_off.
Qed.

Lemma wo_markAsRead (user : option UserId) (other : UserId) (messageId : MsgId)
    (now : Time) :
  writes_once (markAsRead user other messageId now).
Proof.
  unfold markAsRead. destruct user as [u|]; [|apply wo_reads; auto with store].
  apply wo_try_l; [|intros e; ro_step].
  apply wo_bind_l; [apply wo_request; intros d; apply write_read | intros ?; ro_step].
Qed.

Lemma wo_deleteMessage (user : option UserId) (messageId : MsgId) (now : Time) :
  writes_once (deleteMessage user messageId now).
Proof.
  unfold deleteMessage. destruct user as [u|]; [|apply wo_reads; auto with store].
  apply wo_try_l; [|intros e; ro_step].
  apply wo_bind_l; [apply wo_request; intros d; apply write_deleted | intros ?; ro_step].
Qed.

(** ** What the writes keep *)

Lemma sort_pair_sorted (a b : UserId) :
  String.leb (fst (sort_pair a b)) (snd (sort_pair a b)) = true.
Proof.
  unfold sort_pair. destruct (String.leb a b) eqn:E; simpl; [exact E|].
  destruct (String.leb_total a b) as [H|H]; [congruence | exact H].
Qed.

Lemma insert_message_rooms (uid : UserId) (m : ChatMessage) (d : Db) :
  chat_rooms (snd (insert_message uid m d)) = chat_rooms d
  /\ typing_indicators (snd (insert_message uid m d)) = typing_indicators d.
Proof. unfold insert_message. destruct (negb _); split; reflexivity. Qed.

Lemma update_messages_rooms (uid : UserId) (filt : ChatMessage -> bool)
    (upd : ChatMessage -> ChatMessage) (d : Db) :
  chat_rooms (snd (update_messages uid filt upd d)) = chat_rooms d
  /\ typing_indicators (snd (update_messages uid filt upd d)) = typing_indicators d.
Proof. unfold update_messages. destruct (forallb _ _); split; reflexivity. Qed.

Lemma upsert_typing_rooms (uid : UserId) (row : TypingIndicator) (now : Time) (d : Db) :
  chat_rooms (snd (upsert_typing uid row now d)) = chat_rooms d
  /\ chat_messages (snd (upsert_typing uid row now d)) = chat_messages d.
Proof. unfold upsert_typing. destruct (negb _); split; reflexivity. Qed.

Lemma insert_room_others (uid p1 p2 : UserId) (now : Time) (d : Db) :
  chat_messages (snd (insert_room uid p1 p2 now d)) = chat_messages d
  /\ typing_indicators (snd (insert_room uid p1 p2 now d)) = typing_indicators d.
Proof.
  unfold insert_room. destruct (negb _); [split; reflexivity|].
  destruct (existsb _ _); split; reflexivity.
Qed.

(** No write of the hook removes or rewrites a room. *)
Lemma hook_write_rooms (d d' : Db) :
  HookWrite d d' ->
  chat_rooms d' = chat_rooms d
  \/ exists user otherUserId now,
       rls_insert_room user (fst (sort_pair user otherUserId))
                       (snd (sort_pair user otherUserId)) d = true
       /\ chat_rooms d'
          = chat_rooms d ++ [mkRoom (next_uuid d) (fst (sort_pair user otherUserId))
                                    (snd (sort_pair user otherUserId)) now].
Proof.
  intros H. destruct H.
  - unfold insert_room.
    destruct (rls_insert_room user _ _ d) eqn:Er; simpl; [|left; reflexivity].
    destruct (existsb _ (chat_rooms d)); simpl; [left; reflexivity|].
    right. exists user, otherUserId, now. auto.
  - left. apply insert_message_rooms.
  - left. apply update_messages_rooms.
  - left. apply update_messages_rooms.
  - left. apply upsert_typing_rooms.
  - left. reflexivity.
Qed.

Lemma hook_write_keeps_index (d d' : Db) :
  HookWrite d d' -> unique_index d -> unique_index d'.
Proof.
  intros H Hidx. destruct H; try (apply insert_room_keeps_index; exact Hidx);
    unfold unique_index.
  - rewrite (proj1 (insert_message_rooms _ _ _)). exact Hidx.
  - rewrite (proj1 (update_messages_rooms _ _ _ _)). exact Hidx.
  - rewrite (proj1 (update_messages_rooms _ _ _ _)). exact Hidx.
  - rewrite (proj1 (upsert_typing_rooms _ _ _ _)). exact Hidx.
  - exact Hidx.
Qed.

Lemma hook_write_keeps_canonical (d d' : Db) :
  HookWrite d d' -> Forall room_canonical (chat_rooms d) ->
  Forall room_canonical (chat_rooms d').
Proof.
  intros H Hall. destruct (hook_write_rooms H) as [->|(u & o & now & Hrls & ->)];
    [exact Hall|].
  apply Forall_app. split; [exact Hall|]. constructor; [|constructor].
  unfold room_canonical. simpl. split; [|apply sort_pair_sorted].
  unfold rls_insert_room in Hrls.
  apply andb_true_iff in Hrls. destruct Hrls as [Hrls _].
  apply andb_true_iff in Hrls. destruct Hrls as [_ Hne].
  apply negb_true_iff in Hne. apply String.eqb_neq. exact Hne.
Qed.

(** X1. In every store the hook can produce, whatever the users, the
    order of their writes and the requests that failed, there is at most
    one room for an unordered pair of users, and every room has two
    different participants, stored with the smaller id first. *)
Theorem reachable_rooms_unique_canonical (d : Db) :
  reachable d ->
  unique_index d /\ Forall room_canonical (chat_rooms d).
Proof.
  induction 1 as [d Hr Hm Ht | d d' Hreach [IHi IHc] Hw].
  - unfold unique_index. rewrite Hr. split; constructor.
  - split.
    + eapply hook_write_keeps_index; eassumption.
    + eapply hook_write_keeps_canonical; eassumption.
Qed.

Lemma reachable_rooms_unique_canonical_witness :
  unique_index busy_db /\ Forall room_canonical (chat_rooms busy_db).
Proof.
  apply reachable_rooms_unique_canonical.
  exact (reach_write
           (reach_write
              (reach_write (reach_start empty_db eq_refl eq_refl eq_refl)
                 (write_room "alice" "bob" 100 _))
              (write_message "alice" 0%nat "hi" 150 _))
           (write_typing_on "alice" 0%nat 160 160 _)).
Defined.

Lemma filter_keeps_keys_distinct (Row Key : Type) (key_of : Row -> Key)
    (keep : Row -> bool) (rows : list Row) :
  NoDup (map key_of rows) -> NoDup (map key_of (filter keep rows)).
Proof.
  intros Hnd. induction rows as [|x rows IH]; simpl in *; [constructor|].
  apply NoDup_cons_iff in Hnd. destruct Hnd as [Hfresh Hrest].
  destruct (keep x); simpl; [|apply IH; exact Hrest].
  apply NoDup_cons_iff. split; [|apply IH; exact Hrest].
  intro Hin. apply Hfresh. apply in_map_iff in Hin. destruct Hin as [z [Hz Hin]].
  apply filter_In in Hin. apply in_map_iff. exists z. tauto.
Qed.

Lemma same_typing_key_eq (a b : TypingIndicator) :
  same_typing_key a b = true <-> typing_key a = typing_key b.
Proof.
  unfold same_typing_key, typing_key.
  rewrite andb_true_iff, Nat.eqb_eq, String.eqb_eq. split.
  - intros [-> ->]. reflexivity.
  - intros H. injection H. auto.
Qed.

Lemma upsert_typing_keeps_key (uid : UserId) (row : TypingIndicator) (now : Time) (d : Db) :
  typing_keys_unique d -> typing_keys_unique (snd (upsert_typing uid row now d)).
Proof.
  unfold typing_keys_unique, upsert_typing. intros H.
  destruct (negb (rls_typing uid row)); [exact H|]. simpl.
  unfold cleanup_typing_indicators. apply filter_keeps_keys_distinct.
  destruct (existsb (same_typing_key row) (typing_indicators d)) eqn:Ex.
  - assert (E : map typing_key
                  (map (fun t => if same_typing_key row t then row else t)
                       (typing_indicators d))
                = map typing_key (typing_indicators d)).
    { rewrite map_map. apply map_ext. intros t.
      destruct (same_typing_key row t) eqn:Ek; [|reflexivity].
      apply same_typing_key_eq. exact Ek. }
    rewrite E. exact H.
  - rewrite map_app. simpl.
    apply (Permutation_NoDup (Permutation_cons_append _ _)).
    constructor; [|exact H].
    intro Hin. apply in_map_iff in Hin. destruct Hin as [t [Hk Hin]].
    assert (existsb (same_typing_key row) (typing_indicators d) = true).
    { apply existsb_exists. exists t. split; [exact Hin|].
      apply same_typing_key_eq. symmetry. exact Hk. }
    congruence.
Qed.

Lemma hook_write_keeps_typing_key (d d' : Db) :
  HookWrite d d' -> typing_keys_unique d -> typing_keys_unique d'.
Proof.
  intros H Hk. destruct H; unfold typing_keys_unique.
  - rewrite (proj2 (insert_room_others _ _ _ _ _)). exact Hk.
  - rewrite (proj2 (insert_message_rooms _ _ _)). exact Hk.
  - rewrite (proj2 (update_messages_rooms _ _ _ _)). exact Hk.
  - rewrite (proj2 (update_messages_rooms _ _ _ _)). exact Hk.
  - apply upsert_typing_keeps_key. exact Hk.
  - simpl. apply filter_keeps_keys_distinct. exact Hk.
Qed.

(** X2. In every store the hook can produce there is at most one typing
    row for a room and a user: [setTyping(true)] replaces the row of the
    caller, it never adds a second one. *)
Theorem reachable_typing_key_unique (d : Db) :
  reachable d -> typing_keys_unique d.
Proof.
  induction 1 as [d Hr Hm Ht | d d' Hreach IH Hw].
  - unfold typing_keys_unique. rewrite Ht. constructor.
  - eapply hook_write_keeps_typing_key; eassumption.
Qed.

Lemma reachable_typing_key_unique_witness : typing_keys_unique busy_db.
Proof.
  apply reachable_typing_key_unique.
  exact (reach_write
           (reach_write
              (reach_write (reach_start empty_db eq_refl eq_refl eq_refl)
                 (write_room "alice" "bob" 100 _))
              (write_message "alice" 0%nat "hi" 150 _))
           (write_typing_on "alice" 0%nat 160 160 _)).
Defined.

Lemma in_own_room_grows (uid : UserId) (d d' : Db) (rid : RoomId) (l : list ChatRoom) :
  chat_rooms d' = chat_rooms d ++ l ->
  in_own_room uid d rid = true -> in_own_room uid d' rid = true.
Proof.
  unfold in_own_room. intros -> H.
  rewrite filter_app, existsb_app, H. reflexivity.
Qed.

Lemma hook_write_rooms_grow (d d' : Db) :
  HookWrite d d' -> exists l, chat_rooms d' = chat_rooms d ++ l.
Proof.
  intros H. destruct (hook_write_rooms H) as [->|(u & o & now & _ & ->)].
  - exists []. rewrite app_nil_r. reflexivity.
  - eexists. reflexivity.
Qed.

Lemma update_messages_keeps_senders (uid : UserId) (filt : ChatMessage -> bool)
    (upd : ChatMessage -> ChatMessage) (d : Db) :
  (forall m, m_sender_id (upd m) = m_sender_id m /\ m_room_id (upd m) = m_room_id m) ->
  Forall (sender_in_room d) (chat_messages d) ->
  Forall (sender_in_room (snd (update_messages uid filt upd d)))
         (chat_messages (snd (update_messages uid filt upd d))).
Proof.
  intros Hupd Hall. unfold update_messages.
  destruct (forallb _ (chat_messages d)); simpl; [|exact Hall].
  apply Forall_map. eapply Forall_impl; [|exact Hall].
  intros m Hm. unfold sender_in_room, in_own_room in *. simpl.
  destruct (filt m && rls_update_using uid m); [|exact Hm].
  destruct (Hupd m) as [-> ->]. exact Hm.
Qed.

Lemma hook_write_keeps_senders (d d' : Db) :
  HookWrite d d' -> Forall (sender_in_room d) (chat_messages d) ->
  Forall (sender_in_room d') (chat_messages d').
Proof.
  intros H Hall.
  assert (Hgrow : forall m, sender_in_room d m -> sender_in_room d' m).
  { destruct (hook_write_rooms_grow H) as [l Hl].
    intros m. apply in_own_room_grows with (l := l). exact Hl. }
  destruct H.
  - rewrite (proj1 (insert_room_others _ _ _ _ _)).
    eapply Forall_impl; [exact Hgrow | exact Hall].
  - unfold insert_message in *.
    destruct (rls_insert_message user d _) eqn:Er; simpl in *; [|exact Hall].
    apply Forall_app. split.
    + eapply Forall_impl; [exact Hgrow | exact Hall].
    + constructor; [|constructor].
      unfold rls_insert_message in Er. simpl in Er.
      apply andb_true_iff in Er. destruct Er as [Er _].
      unfold sender_in_room, in_own_room. simpl. exact Er.
  - apply update_messages_keeps_senders; [|exact Hall]. intros m. split; reflexivity.
  - apply update_messages_keeps_senders; [|exact Hall]. intros m. split; reflexivity.
  - rewrite (proj2 (upsert_typing_rooms _ _ _ _)).
    eapply Forall_impl; [exact Hgrow | exact Hall].
  - exact Hall.
Qed.

(** X3. In every store the hook can produce, the sender of every message
    is a participant of the room the message is in: the insert policy lets
    nobody write into a room of others, and no later write moves a message
    or changes its sender. *)
Theorem reachable_senders_in_room (d : Db) :
  reachable d -> Forall (sender_in_room d) (chat_messages d).
Proof.
  induction 1 as [d Hr Hm Ht | d d' Hreach IH Hw].
  - rewrite Hm. constructor.
  - eapply hook_write_keeps_senders; eassumption.
Qed.

Lemma reachable_senders_in_room_witness :
  Forall (sender_in_room busy_db) (chat_messages busy_db).
Proof.
  apply reachable_senders_in_room.
  exact (reach_write
           (reach_write
              (reach_write (reach_start empty_db eq_refl eq_refl eq_refl)
                 (write_room "alice" "bob" 100 _))
              (write_message "alice" 0%nat "hi" 150 _))
           (write_typing_on "alice" 0%nat 160 160 _)).
Defined.

Lemma hook_write_keeps_inv (d d' : Db) :
  HookWrite d d' -> store_inv d -> store_inv d'.
Proof.
  intros H (Hi & Hc & Ht & Hs). repeat split.
  - eapply hook_write_keeps_index; eassumption.
  - eapply hook_write_keeps_canonical; eassumption.
  - eapply hook_write_keeps_typing_key; eassumption.
  - eapply hook_write_keeps_senders; eassumption.
Qed.

Lemma writes_once_keeps (A : Type) (m : M A) :
  writes_once m -> keeps_store store_inv m.
Proof.
  intros Hm w Hinv. unfold world_after.
  destruct (Hm w) as [->|Hw]; [exact Hinv|].
  eapply hook_write_keeps_inv; eassumption.
Qed.

(** X4. Each operation of the hook, run in any state of the session, by
    any user and whatever requests fail, keeps the four properties of the
    store: one room for a pair, canonical rooms, one typing row for a room
    and a user, and senders that take part in their rooms. *)
Theorem hook_calls_keep_store_inv (u : UserId) (user : option UserId) (other : UserId)
    (content : string) (isTyping : bool) (messageId : MsgId) (now server_now : Time)
    (w : World) :
  store_inv (db w) ->
  store_inv (db (world_after (initializeChat u other now) w))
  /\ store_inv (db (world_after (sendMessage user content now) w))
  /\ store_inv (db (world_after (setTyping user isTyping now server_now) w))
  /\ store_inv (db (world_after (markAsRead user other messageId now) w))
  /\ store_inv (db (world_after (deleteMessage user messageId now) w)).
Proof.
  intros Hinv. split; [|split; [|split; [|split]]].
  - apply (writes_once_keeps (@wo_initializeChat u other now)); exact Hinv.
  - apply (writes_once_keeps (@wo_sendMessage user content now)); exact Hinv.
  - apply (writes_once_keeps (@wo_setTyping user isTyping now server_now)); exact Hinv.
  - apply (writes_once_keeps (@wo_markAsRead user other messageId now)); exact Hinv.
  - apply (writes_once_keeps (@wo_deleteMessage user messageId now)); exact Hinv.
Qed.

Lemma hook_calls_keep_store_inv_witness :
  store_inv (db (world_after (sendMessage (Some "alice") "hello" 300) alice_ready))
  /\ store_inv (db (world_after (deleteMessage (Some "alice") 1%nat 300) alice_ready)).
Proof.
  assert (H : store_inv (db alice_ready)).
  { vm_compute. repeat split.
    - constructor; [intros []|constructor].
    - constructor; [|constructor]. split; [discriminate|reflexivity].
    - constructor.
    - constructor; [reflexivity|constructor]. }
  destruct (@hook_calls_keep_store_inv "alice" (Some "alice") "bob" "hello" true 1%nat 300
              305 alice_ready H) as (_ & Hs & _ & _ & Hd).
  split; assumption.
Defined.

Lemma update_messages_core (uid : UserId) (filt : ChatMessage -> bool)
    (upd : ChatMessage -> ChatMessage) (d : Db) :
  (forall m, message_core (upd m) = message_core m) ->
  map message_core (chat_messages (snd (update_messages uid filt upd d)))
  = map message_core (chat_messages d).
Proof.
  intros Hupd. unfold update_messages.
  destruct (forallb _ (chat_messages d)); simpl; [|reflexivity].
  rewrite map_map. apply map_ext. intros m.
  destruct (filt m && rls_update_using uid m); [apply Hupd | reflexivity].
Qed.

Lemma hook_write_only_grows (d d' : Db) : HookWrite d d' -> only_grows d d'.
Proof.
  intros H. split; [apply hook_write_rooms_grow; exact H|].
  assert (Hsame : forall l : list ChatMessage,
            exists l', map message_core l = map message_core l ++ l')
    by (intros l; exists []; rewrite app_nil_r; reflexivity).
  destruct H.
  - rewrite (proj1 (insert_room_others _ _ _ _ _)). apply Hsame.
  - unfold insert_message. destruct (negb _); simpl; [apply Hsame|].
    rewrite map_app. eexists. reflexivity.
  - rewrite update_messages_core; [apply Hsame | reflexivity].
  - rewrite update_messages_core; [apply Hsame | reflexivity].
  - rewrite (proj2 (upsert_typing_rooms _ _ _ _)). apply Hsame.
  - apply Hsame.
Qed.

Lemma writes_once_loses_nothing (A : Type) (m : M A) :
  writes_once m -> loses_nothing m.
Proof.
  intros Hm w. unfold world_after.
  destruct (Hm w) as [->|Hw]; [|apply hook_write_only_grows; exact Hw].
  split; exists []; rewrite app_nil_r; reflexivity.
Qed.

(** X5. No operation of the hook removes a room or a message from the
    store or changes the id, room, sender, content or creation time of a
    message: rows are only added at the end of the two tables, and
    [deleteMessage] and [markAsRead] leave every row in its place with its
    content. *)
Theorem hook_calls_lose_nothing (u : UserId) (user : option UserId) (other : UserId)
    (content : string) (isTyping : bool) (messageId : MsgId) (now server_now : Time) :
  loses_nothing (initializeChat u other now)
  /\ loses_nothing (sendMessage user content now)
  /\ loses_nothing (setTyping user isTyping now server_now)
  /\ loses_nothing (markAsRead user other messageId now)
  /\ loses_nothing (deleteMessage user messageId now).
Proof.
  split; [|split; [|split; [|split]]]; apply writes_once_loses_nothing.
  - apply wo_initializeChat.
  - apply wo_sendMessage.
  - apply wo_setTyping.
  - apply wo_markAsRead.
  - apply wo_deleteMessage.
Qed.

(** ** What a resolution returns *)

Lemma request_cases (A : Type) (op : Db -> Response A * Db) (w : World) :
  (exists e, request op w = (Ret (inr e), set_net (tl (net w)) w))
  \/ request op w
     = (Ret (fst (op (db w))), set_db (snd (op (db w))) (set_net (tl (net w)) w)).
Proof.
  unfold request. destruct w as [d n c s t se]. simpl.
  destruct n as [|[e|] rest]; simpl.
  - right. destruct (op d); reflexivity.
  - left. exists e. reflexivity.
  - right. destruct (op d); reflexivity.
Qed.

Lemma insert_room_result (uid p1 p2 : UserId) (now : Time) (d : Db) (r : ChatRoom) :
  fst (insert_room uid p1 p2 now d) = inl r ->
  In r (chat_rooms (snd (insert_room uid p1 p2 now d)))
  /\ r_participant1_id r = p1 /\ r_participant2_id r = p2.
Proof.
  unfold insert_room. destruct (negb _); [discriminate|].
  destruct (existsb _ _); [discriminate|]. simpl.
  intros H. injection H as <-. simpl. split; [|auto].
  apply in_or_app. right. left. reflexivity.
Qed.

Lemma recover_room_some (u o : UserId) (d : Db) (r : ChatRoom) :
  recover_room u (fst (sort_pair u o)) (snd (sort_pair u o)) d = Some r ->
  In r (chat_rooms d) /\ room_matches u o r = true.
Proof.
  rewrite recover_room_pair. unfold rooms_of_pair. intros H.
  destruct (filter (room_matches u o) (chat_rooms d)) as [|x l] eqn:E; [discriminate|].
  injection H as ->.
  assert (Hin : In r (filter (room_matches u o) (chat_rooms d)))
    by (rewrite E; left; reflexivity).
  apply filter_In in Hin. exact Hin.
Qed.

(** Whatever happened on the way, a room that [resolveRoom] returns is a
    row of the store whose participants are the user and the other user. *)
Lemma resolveRoom_result (u o : UserId) (now : Time) (w w' : World) (r : ChatRoom) :
  resolveRoom u o now w = (Ret r, w') ->
  In r (chat_rooms (db w')) /\ room_matches u o r = true.
Proof.
  unfold resolveRoom, bind.
  destruct (request_cases (query (find_room u u o)) w) as [[e ->]| ->]; simpl.
  2: destruct (find_room u u o (db w)) as [found|] eqn:Ef;
     [intros H; injection H as <- <-; simpl; apply find_room_some; exact Ef|].
  all: rewrite (surjective_pairing (sort_pair u o)); unfold try_catch, bind.
  all: match goal with
       | |- context [request (insert_room ?a ?b ?c ?n) ?w0] =>
           destruct (request_cases (insert_room a b c n) w0) as [[e1 ->]| ->]
       end; simpl.
  all: try match goal with
       | |- context [insert_room ?a ?b ?c ?n ?d0] =>
           pose proof (@insert_room_result a b c n d0) as Hins;
           destruct (insert_room a b c n d0) as [[newRoom|createError] d1]; simpl in *
       end.
  all: try (intros H; injection H as <- <-; simpl;
            destruct (Hins _ eq_refl) as (Hin & Hp1 & Hp2); split; [exact Hin|];
            apply room_matches_key; unfold pair_key; rewrite Hp1, Hp2;
            apply sort_pair_idem).
  all: try match goal with
       | |- context [String.eqb (pg_code ?x) "23505"] =>
           destruct (String.eqb (pg_code x) "23505"); [|discriminate]
       end.
  all: unfold bind;
       match goal with
       | |- context [request (query (recover_room ?a ?b ?c)) ?w0] =>
           destruct (request_cases (query (recover_room a b c)) w0) as [[e2 ->]| ->]
       end; simpl; try discriminate.
  all: match goal with
       | |- context [recover_room ?a ?b ?c ?d0] =>
           destruct (recover_room a b c d0) as [rec|] eqn:Er; [|discriminate]
       end.
  all: intros H; injection H as <- <-; simpl; apply recover_room_some; exact Er.
Qed.

(** X6. When [initializeChat] ends with its subscriptions, the room of the
    session is a row of the store whose two participants are the user and
    the other user, and the message list is exactly the history of that
    room as the store returns it at that moment, in place of whatever the
    list held before. *)
Theorem initializeChat_success_state (u o : UserId) (now : Time) (w w' : World)
    (cl : Cleanup) :
  initializeChat u o now w = (Ret (Some cl), w') ->
  exists r,
    room (session w') = Some r
    /\ In r (chat_rooms (db w'))
    /\ room_matches u o r = true
    /\ messages (session w') = select_messages u (r_id r) (db w')
    /\ loading (session w') = false.
Proof.
  unfold initializeChat, try_catch, bind.
  destruct (resolveRoom u o now w) as [[r|e] w1] eqn:Eres; [|discriminate].
  destruct (resolveRoom_result u o now w Eres) as [Hin Hm].
  unfold setRoom at 1. cbv beta iota zeta.
  match goal with
  | |- context [request ?op ?w0] =>
      destruct (request_cases op w0) as [[e ->]| ->]
  end; simpl; [discriminate|].
  intros H. injection H as <- <-. simpl.
  exists r. auto.
Qed.

Lemma initializeChat_success_state_witness :
  exists r,
    room (session alice_ready) = Some r
    /\ In r (chat_rooms (db alice_ready))
    /\ room_matches "alice" "bob" r = true
    /\ messages (session alice_ready) = select_messages "alice" (r_id r) (db alice_ready)
    /\ loading (session alice_ready) = false.
Proof.
  apply (@initializeChat_success_state "alice" "bob" 200 (initial_world hi_db) alice_ready
           [MessagesChannel 0%nat; TypingChannel 0%nat]).
  reflexivity.
Defined.

(** ** History *)

(** X7. The history query returns only rows of the table that belong to
    the room asked for, and only to a participant of that room: a caller
    who takes part in no room with that id gets the empty list. *)
Theorem select_messages_only_own_room (uid : UserId) (rid : RoomId) (d : Db) :
  (forall m, In m (select_messages uid rid d) ->
             In m (chat_messages d) /\ m_room_id m = rid
             /\ in_own_room uid d rid = true)
  /\ (in_own_room uid d rid = false -> select_messages uid rid d = []).
Proof.
  assert (H : forall m, In m (select_messages uid rid d) ->
                In m (chat_messages d) /\ m_room_id m = rid
                /\ in_own_room uid d rid = true).
  { intros m Hin. unfold select_messages in Hin.
    apply (Permutation_in m (order_by_perm m_created_at _)) in Hin.
    apply filter_In in Hin. destruct Hin as [Hin Hc].
    apply andb_true_iff in Hc. destruct Hc as [Hv Hr].
    apply Nat.eqb_eq in Hr. unfold rls_select_message in Hv.
    rewrite Hr in Hv. auto. }
  split; [exact H|].
  intros Hno. destruct (select_messages uid rid d) as [|m l] eqn:E; [reflexivity|].
  destruct (H m (or_introl eq_refl)) as (_ & _ & Hown). congruence.
Qed.

Lemma select_messages_only_own_room_witness :
  select_messages "carol" 0%nat hi_db = [].
Proof.
  apply (proj2 (select_messages_only_own_room "carol" 0%nat hi_db)).
  reflexivity.
Defined.

(** X8. Right after a send whose insert reached the store, the history
    of the room holds the message, as read by the sender and by every other
    participant: the row has the text and the time the client gave, the
    sender as its sender, and no read or delete time. (A later
    [markAsRead] or [deleteMessage] replaces the row by one with that time
    set.) *)
Theorem sent_message_in_history (u v : UserId) (content : string) (now : Time)
    (w : World) (r : ChatRoom) :
  room (session w) = Some r ->
  next_request_arrives w ->
  in_own_room u (db w) (r_id r) = true ->
  in_own_room v (db w) (r_id r) = true ->
  In (mkMsg (Some (next_uuid (db w))) (r_id r) u content now None None)
     (select_messages v (r_id r)
        (db (world_after (sendMessage (Some u) content now) w))).
Proof.
  intros Hr Hn Hu Hv. unfold world_after.
  rewrite (sendMessage_success u content now w Hr Hn Hu). simpl.
  unfold select_messages.
  eapply Permutation_in; [symmetry; apply order_by_perm|].
  apply filter_In. split.
  - simpl. apply in_or_app. right. left. reflexivity.
  - unfold rls_select_message, in_own_room in *. simpl. rewrite Hv. simpl.
    apply Nat.eqb_refl.
Qed.

Lemma sent_message_in_history_witness :
  In (mkMsg (Some 2%nat) 0%nat "alice" "hello" 300 None None)
     (select_messages "bob" 0%nat
        (db (world_after (sendMessage (Some "alice") "hello" 300) alice_ready))).
Proof.
  apply (@sent_message_in_history "alice" "bob" "hello" 300 alice_ready
           (mkRoom 0%nat "alice" "bob" 100));
    [reflexivity | exact I | reflexivity | reflexivity].
Defined.

(** ** Opening a chat that exists *)

Lemma only_reads (A : Type) (f : Db -> Db) (m : M A) : reads_only m -> writes_only f m.
Proof. intros H w. left. apply H. Qed.

Lemma only_bind_l (A B : Type) (f : Db -> Db) (m : M A) (k : A -> M B) :
  writes_only f m -> (forall a, reads_only (k a)) -> writes_only f (bind m k).
Proof.
  intros Hm Hk w. unfold bind. specialize (Hm w).
  destruct (m w) as [[a|e] w1]; simpl in *; [rewrite Hk|]; exact Hm.
Qed.

Lemma only_bind_r (A B : Type) (f : Db -> Db) (m : M A) (k : A -> M B) :
  reads_only m -> (forall a, writes_only f (k a)) -> writes_only f (bind m k).
Proof.
  intros Hm Hk w. unfold bind. specialize (Hm w).
  destruct (m w) as [[a|e] w1]; simpl in *.
  - rewrite <- Hm. apply Hk.
  - left. exact Hm.
Qed.

Lemma only_try_l (A : Type) (f : Db -> Db) (m : M A) (h : JsError -> M A) :
  writes_only f m -> (forall e, reads_only (h e)) -> writes_only f (try_catch m h).
Proof.
  intros Hm Hh w. unfold try_catch. specialize (Hm w).
  destruct (m w) as [[a|e] w1]; simpl in *; [|rewrite Hh]; exact Hm.
Qed.

Lemma only_request (A : Type) (op : Db -> Response A * Db) :
  writes_only (fun d => snd (op d)) (request op).
Proof.
  intros w. unfold request.
  destruct (net w) as [|[e|] rest]; [| left; reflexivity |];
    destruct (op (db w)); right; reflexivity.
Qed.

Lemma only_resolveRoom (u o : UserId) (now : Time) :
  writes_only (create_room u o now) (resolveRoom u o now).
Proof.
  unfold resolveRoom. apply only_bind_r; [auto with store|].
  intros existing. destruct (data_or_null existing); [apply only_reads; auto with store|].
  rewrite (surjective_pairing (sort_pair u o)).
  apply only_try_l.
  - apply only_bind_l.
    + apply (only_request (insert_room u (fst (sort_pair u o)) (snd (sort_pair u o)) now)).
    + intros [newRoom|createError]; auto with store.
  - intros e. destruct (String.eqb (error_code e) "23505"); [|auto with store].
    ro_step. destruct (data_or_null a); auto with store.
Qed.

Lemma only_initializeChat (u o : UserId) (now : Time) :
  writes_only (create_room u o now) (initializeChat u o now).
Proof.
  unfold initializeChat. apply only_try_l.
  - apply only_bind_l; [apply only_resolveRoom|].
    intros r. ro_step. destruct a0; ro_step.
  - intros e. ro_step.
Qed.

Lemma room_exists_for_key (u o : UserId) (d : Db) :
  rooms_of_pair u o d <> [] ->
  existsb (fun r => pair_eqb (pair_key r) (sort_pair u o)) (chat_rooms d) = true.
Proof.
  intros H. unfold rooms_of_pair in H.
  destruct (filter (room_matches u o) (chat_rooms d)) as [|r l] eqn:E; [contradiction|].
  assert (Hin : In r (filter (room_matches u o) (chat_rooms d)))
    by (rewrite E; left; reflexivity).
  apply filter_In in Hin. destruct Hin as [Hin Hm].
  apply existsb_exists. exists r. split; [exact Hin|].
  apply pair_eqb_eq, room_matches_key. exact Hm.
Qed.

Lemma create_room_existing (u o : UserId) (now : Time) (d : Db) :
  rooms_of_pair u o d <> [] -> create_room u o now d = d.
Proof.
  intros H. unfold create_room, insert_room.
  destruct (negb _); [reflexivity|].
  rewrite sort_pair_idem, (room_exists_for_key u o d H). reflexivity.
Qed.

(** X9. Opening a chat for which a room exists never writes to the store:
    whatever requests are lost on the way, [initializeChat] leaves the
    store exactly as it was; in particular it adds no second room. *)
Theorem initializeChat_existing_room_no_write (u o : UserId) (now : Time) (w : World) :
  rooms_of_pair u o (db w) <> [] ->
  db (world_after (initializeChat u o now) w) = db w.
Proof.
  intros H. unfold world_after.
  destruct (only_initializeChat u o now w) as [E|E]; [exact E|].
  rewrite E. apply create_room_existing. exact H.
Qed.

Lemma initializeChat_existing_room_no_write_witness :
  db (world_after (initializeChat "bob" "alice" 400)
        (set_net [Some NetworkError] (initial_world hi_db)))
  = hi_db.
Proof.
  apply (@initializeChat_existing_room_no_write "bob" "alice" 400
           (set_net [Some NetworkError] (initial_world hi_db))).
  discriminate.
Defined.

Lemma all_arrive_next (w : World) : all_arrive (net w) -> next_request_arrives w.
Proof.
  unfold all_arrive, next_request_arrives. intros H.
  destruct (net w) as [|[e|] rest]; auto.
  inversion H; subst. discriminate.
Qed.

Lemma all_arrive_tl (n : list (option PgError)) : all_arrive n -> all_arrive (tl n).
Proof.
  unfold all_arrive. intros H. destruct n; [exact H|]. inversion H; assumption.
Qed.

(** X10. The first lookup of [initializeChat] may be lost without harm.
    Its error is not read, so the resolution goes on to the insert; for two
    different users no block relates and whose room exists, the insert
    meets the unique index and the recovery query returns the existing
    room, with the store unchanged. *)
Theorem resolveRoom_survives_lost_lookup (u o : UserId) (now : Time) (w : World)
    (r : ChatRoom) (e : PgError) (rest : list (option PgError)) :
  u <> o -> unblocked u o (db w) ->
  hd_error (rooms_of_pair u o (db w)) = Some r ->
  net w = Some e :: rest -> all_arrive rest ->
  fst (resolveRoom u o now w) = Ret r
  /\ db (snd (resolveRoom u o now w)) = db w.
Proof.
  intros Hne Hub Hr Hnet Hrest.
  assert (Hex : rooms_of_pair u o (db w) <> [])
    by (intro E; rewrite E in Hr; discriminate).
  unfold resolveRoom, bind.
  rewrite (request_lost (query (find_room u u o)) w Hnet). simpl.
  rewrite (surjective_pairing (sort_pair u o)). unfold try_catch, bind.
  rewrite request_arrives by (apply all_arrive_next; exact Hrest).
  simpl. unfold insert_room.
  rewrite (rls_insert_room_sorted Hne Hub). simpl.
  rewrite sort_pair_idem, (room_exists_for_key u o (db w) Hex). simpl.
  unfold bind.
  rewrite request_arrives by (apply all_arrive_next; simpl; apply all_arrive_tl; exact Hrest).
  simpl. rewrite recover_room_pair, Hr. simpl. auto.
Qed.

Lemma resolveRoom_survives_lost_lookup_witness :
  fst (resolveRoom "bob" "alice" 400 (set_net [Some NetworkError] (initial_world hi_db)))
  = Ret (mkRoom 0%nat "alice" "bob" 100)
  /\ db (snd (resolveRoom "bob" "alice" 400
                (set_net [Some NetworkError] (initial_world hi_db))))
     = hi_db.
Proof.
  apply (@resolveRoom_survives_lost_lookup "bob" "alice" 400
           (set_net [Some NetworkError] (initial_world hi_db))
           (mkRoom 0%nat "alice" "bob" 100) NetworkError []).
  - discriminate.
  - reflexivity.
  - reflexivity.
  - reflexivity.
  - constructor.
Defined.

(** ** Typing rows *)

Lemma upsert_typing_own_row (u : UserId) (rid : RoomId) (now server_now : Time) (d : Db) :
  server_now - passive_expiry_window <= now ->
  In (mkTyping rid u now)
     (typing_indicators (snd (upsert_typing u (mkTyping rid u now) server_now d))).
Proof.
  intros Hskew.
  unfold upsert_typing, rls_typing. simpl. rewrite String.eqb_refl. simpl.
  unfold cleanup_typing_indicators. apply filter_In. split.
  - destruct (existsb (same_typing_key (mkTyping rid u now)) (typing_indicators d)) eqn:Ex.
    + apply existsb_exists in Ex. destruct Ex as [t [Hin Hk]].
      apply in_map_iff. exists t. rewrite Hk. auto.
    + apply in_or_app. right. left. reflexivity.
  - simpl. unfold rls_typing. simpl. rewrite String.eqb_refl. simpl.
    apply negb_true_iff. apply Z.ltb_ge. exact Hskew.
Qed.

(** After the upsert every row with the key of the written row is the
    written row. *)
Lemma upsert_typing_same_key (u : UserId) (row t : TypingIndicator) (now : Time) (d : Db) :
  rls_typing u row = true ->
  In t (typing_indicators (snd (upsert_typing u row now d))) ->
  typing_key t = typing_key row -> t = row.
Proof.
  unfold upsert_typing. intros -> Hin Hk. simpl in Hin.
  unfold cleanup_typing_indicators in Hin. apply filter_In in Hin.
  destruct Hin as [Hin _].
  assert (Hsame : same_typing_key row t = true)
    by (apply same_typing_key_eq; symmetry; exact Hk).
  destruct (existsb (same_typing_key row) (typing_indicators d)) eqn:Ex.
  - apply in_map_iff in Hin. destruct Hin as [x [Hx _]].
    destruct (same_typing_key row x) eqn:Ek; [symmetry; exact Hx|].
    subst x. congruence.
  - apply in_app_or in Hin. destruct Hin as [Hin|[E|[]]]; [|symmetry; exact E].
    assert (existsb (same_typing_key row) (typing_indicators d) = true)
      by (apply existsb_exists; exists t; auto).
    congruence.
Qed.

Lemma upsert_typing_swept (u : UserId) (row : TypingIndicator) (now : Time) (d : Db)
    (t : TypingIndicator) :
  rls_typing u row = true ->
  In t (typing_indicators (snd (upsert_typing u row now d))) ->
  t_user_id t = u -> now - passive_expiry_window <= t_updated_at t.
Proof.
  unfold upsert_typing. intros -> Hin Hu. simpl in Hin.
  unfold cleanup_typing_indicators in Hin. apply filter_In in Hin.
  destruct Hin as [_ Hkeep]. unfold rls_typing in Hkeep.
  rewrite Hu, String.eqb_refl in Hkeep. simpl in Hkeep.
  apply negb_true_iff, Z.ltb_ge in Hkeep. exact Hkeep.
Qed.

Lemma upsert_typing_others (u : UserId) (row t : TypingIndicator) (now : Time) (d : Db) :
  t_user_id row = u -> t_user_id t <> u ->
  (In t (typing_indicators (snd (upsert_typing u row now d))) <->
   In t (typing_indicators d)).
Proof.
  intros Hrow Ht. unfold upsert_typing.
  destruct (negb (rls_typing u row)); [reflexivity|]. simpl.
  assert (Hk : same_typing_key row t = false).
  { unfold same_typing_key. rewrite Hrow.
    assert (String.eqb u (t_user_id t) = false) by (apply String.eqb_neq; congruence).
    rewrite H. apply andb_false_r. }
  assert (Hneq : row <> t) by (intro E; apply Ht; rewrite <- E; exact Hrow).
  unfold cleanup_typing_indicators. rewrite filter_In.
  assert (Hkeep : negb (rls_typing u t && (t_updated_at t <? now - passive_expiry_window))
                  = true).
  { unfold rls_typing.
    assert (String.eqb u (t_user_id t) = false) by (apply String.eqb_neq; congruence).
    rewrite H. reflexivity. }
  rewrite Hkeep.
  destruct (existsb (same_typing_key row) (typing_indicators d)).
  - rewrite in_map_iff. split.
    + intros [[x [Hx Hin]] _]. destruct (same_typing_key row x); [contradiction|].
      subst. exact Hin.
    + intros Hin. split; [|reflexivity]. exists t. rewrite Hk. auto.
  - rewrite in_app_iff. simpl. split.
    + intros [[Hin|[E|[]]] _]; [exact Hin | contradiction].
    + intros Hin. auto.
Qed.

Lemma delete_typing_others (u : UserId) (rid : RoomId) (t : TypingIndicator) (d : Db) :
  t_user_id t <> u ->
  (In t (typing_indicators (snd (delete_typing u rid u d))) <->
   In t (typing_indicators d)).
Proof.
  intros Ht. unfold delete_typing. simpl. rewrite filter_In.
  assert (String.eqb (t_user_id t) u = false) by (apply String.eqb_neq; exact Ht).
  rewrite H, andb_false_r. simpl. tauto.
Qed.

Lemma setTyping_db (u : UserId) (isTyping : bool) (now server_now : Time) (w : World)
    (r : ChatRoom) :
  room (session w) = Some r ->
  exists w',
    setTyping (Some u) isTyping now server_now w = (Ret tt, w')
    /\ client_side w' = client_side w
    /\ (db w' = db w
        \/ db w' = if isTyping
                   then snd (upsert_typing u (mkTyping (r_id r) u now) server_now (db w))
                   else snd (delete_typing u (r_id r) u (db w))).
Proof.
  intros Hr. unfold setTyping. rewrite Hr. unfold try_catch, bind.
  destruct isTyping;
    match goal with
    | |- context [request ?op w] => destruct (request_cases op w) as [[e ->]| ->]
    end;
    eexists; (split; [reflexivity|]); (split; [reflexivity|]); simpl; auto.
Qed.

(** X11. [setTyping(true)] writes the client's time into the row and the
    sweep compares it with the time of the store. When the request reaches
    the store and the client's clock is not more than the ten seconds of
    the sweep behind the store's, the caller's row for the room is in the
    table afterwards, with the client's time; when it is further behind,
    the sweep removes the row in the statement that wrote it and the caller
    has no row for the room. Either way no row of the caller older than ten
    seconds by the store's clock is left. A [setTyping(false)] that reaches
    the store leaves no row of the caller for the room. *)
Theorem setTyping_own_row (u : UserId) (now server_now : Time) (w : World)
    (r : ChatRoom) :
  room (session w) = Some r ->
  next_request_arrives w ->
  (server_now - passive_expiry_window <= now ->
   In (mkTyping (r_id r) u now)
      (typing_indicators (db (world_after (setTyping (Some u) true now server_now) w))))
  /\ (now < server_now - passive_expiry_window ->
      forall t,
        In t (typing_indicators
                (db (world_after (setTyping (Some u) true now server_now) w))) ->
        typing_key t <> (r_id r, u))
  /\ (forall t,
         In t (typing_indicators
                 (db (world_after (setTyping (Some u) true now server_now) w))) ->
         t_user_id t = u -> server_now - passive_expiry_window <= t_updated_at t)
  /\ (forall t,
         In t (typing_indicators
                 (db (world_after (setTyping (Some u) false now server_now) w))) ->
         typing_key t <> (r_id r, u)).
Proof.
  intros Hr Hn. unfold world_after, setTyping. rewrite Hr.
  unfold try_catch, bind. rewrite !request_arrives by exact Hn. simpl.
  assert (Hrls : rls_typing u (mkTyping (r_id r) u now) = true)
    by (unfold rls_typing; simpl; apply String.eqb_refl).
  assert (Hold : forall t,
             In t (typing_indicators
                     (snd (upsert_typing u (mkTyping (r_id r) u now) server_now (db w)))) ->
             t_user_id t = u -> server_now - passive_expiry_window <= t_updated_at t).
  { intros t Hin Hu. eapply upsert_typing_swept; [exact Hrls|exact Hin|exact Hu]. }
  split; [intros Hskew; apply upsert_typing_own_row; exact Hskew|]. split; [|split].
  - intros Hskew t Hin Hk.
    assert (E : t = mkTyping (r_id r) u now)
      by (eapply upsert_typing_same_key; [exact Hrls|exact Hin|exact Hk]).
    assert (Hu : t_user_id t = u) by (rewrite E; reflexivity).
    specialize (Hold t Hin Hu). rewrite E in Hold. simpl in Hold. lia.
  - exact Hold.
  - intros t Hin Hk. simpl in Hin. apply filter_In in Hin. destruct Hin as [_ Hkeep].
    unfold typing_key in Hk. injection Hk as Hrid Hu.
    unfold rls_typing in Hkeep.
    rewrite Hrid, Hu, String.eqb_refl, Nat.eqb_refl in Hkeep. discriminate.
Qed.

Lemma setTyping_own_row_witness :
  In (mkTyping 0%nat "alice" 300)
     (typing_indicators
        (db (world_after (setTyping (Some "alice") true 300 305) alice_ready)))
  /\ typing_indicators
       (db (world_after (setTyping (Some "alice") true 300 10301) alice_ready)) = []
  /\ typing_indicators
       (db (world_after (setTyping (Some "alice") false 310 310)
              (world_after (setTyping (Some "alice") true 300 305) alice_ready))) = [].
Proof.
  split; [|split; reflexivity].
  apply (@setTyping_own_row "alice" 300 305 alice_ready (mkRoom 0%nat "alice" "bob" 100));
    [reflexivity | exact I | unfold passive_expiry_window; lia].
Defined.

(** X12. [setTyping] never raises, changes nothing on the client and
    leaves rooms and messages alone; of the typing rows of other users it
    adds none, and it removes none that is younger than the ten seconds of
    the sweep (by the clock of the store, whatever the client's clock
    shows). *)
Theorem setTyping_leaves_others (u : UserId) (isTyping : bool) (now server_now : Time)
    (w : World) :
  exists w',
    setTyping (Some u) isTyping now server_now w = (Ret tt, w')
    /\ client_side w' = client_side w
    /\ chat_rooms (db w') = chat_rooms (db w)
    /\ chat_messages (db w') = chat_messages (db w)
    /\ (forall t, t_user_id t <> u ->
                  In t (typing_indicators (db w')) -> In t (typing_indicators (db w)))
    /\ (forall t, t_user_id t <> u -> In t (typing_indicators (db w)) ->
                  server_now - passive_expiry_window <= t_updated_at t ->
                  In t (typing_indicators (db w'))).
Proof.
  destruct (room (session w)) as [r|] eqn:Hr.
  - destruct (setTyping_db u isTyping now server_now w Hr) as (w' & E & Hc & [Hd|Hd]);
      exists w'; (split; [exact E|]); (split; [exact Hc|]); rewrite Hd.
    + repeat split; auto.
    + destruct isTyping.
      * rewrite (proj1 (upsert_typing_rooms _ _ _ _)), (proj2 (upsert_typing_rooms _ _ _ _)).
        split; [reflexivity|]. split; [reflexivity|]. split.
        -- intros t Ht Hin. eapply upsert_typing_others; [| exact Ht | exact Hin].
           reflexivity.
        -- intros t Ht Hin _.
           apply (proj2 (@upsert_typing_others u (mkTyping (r_id r) u now) t server_now
                           (db w) eq_refl Ht)).
           exact Hin.
      * split; [reflexivity|]. split; [reflexivity|]. split.
        -- intros t Ht Hin. eapply delete_typing_others; [exact Ht | exact Hin].
        -- intros t Ht Hin _.
           apply (proj2 (@delete_typing_others u (r_id r) t (db w) Ht)). exact Hin.
  - exists w. unfold setTyping. rewrite Hr. repeat split; auto.
Qed.

(** ** The chat window *)

Lemma drop_spaces_nil (is_space : Ascii.ascii -> bool) (l : list Ascii.ascii) :
  drop_spaces is_space l = [] <-> forallb is_space l = true.
Proof.
  induction l as [|c l IH]; simpl; [tauto|].
  destruct (is_space c); simpl; [exact IH|].
  split; discriminate.
Qed.

Lemma string_of_list_ascii_nil (l : list Ascii.ascii) :
  string_of_list_ascii l = "" <-> l = [].
Proof. destruct l; simpl; split; intros H; try reflexivity; discriminate. Qed.

(** [!message.trim()] holds exactly of the texts with nothing but white
    space, the empty text among them. *)
Lemma trim_empty_iff (is_space : Ascii.ascii -> bool) (s : string) :
  String.eqb (trim is_space s) "" = blank is_space s.
Proof.
  unfold trim, blank.
  set (l := list_ascii_of_string s).
  destruct (forallb is_space l) eqn:E.
  - apply String.eqb_eq. apply string_of_list_ascii_nil.
    apply (drop_spaces_nil is_space) in E. rewrite E. reflexivity.
  - apply String.eqb_neq. intro H. apply string_of_list_ascii_nil in H.
    assert (Hd : drop_spaces is_space l <> []).
    { intro Hn. apply drop_spaces_nil in Hn. congruence. }
    destruct (drop_spaces is_space l) as [|c l'] eqn:Ed; [congruence|].
    assert (Hc : is_space c = false).
    { clear - Ed. induction l as [|x l IH]; simpl in Ed; [discriminate|].
      destruct (is_space x) eqn:Ex; [apply IH; exact Ed|].
      injection Ed as <- _. exact Ex. }
    assert (Hrev : forallb is_space (rev (c :: l')) = false).
    { simpl. rewrite forallb_app. simpl. rewrite Hc. apply andb_false_r. }
    destruct (drop_spaces is_space (rev (c :: l'))) eqn:Er.
    + apply drop_spaces_nil in Er. congruence.
    + simpl in H. destruct (rev l0); discriminate.
Qed.

(** X13. Submitting a text with nothing but white space, the empty text
    among them, does nothing: no request is made, the local list and the
    console are as before, and the input keeps its text. *)
Theorem handleSendMessage_blank (is_space : Ascii.ascii -> bool) (user : option UserId)
    (now : Time) (win : ChatWindowState) (w : World) :
  blank is_space (cw_message win) = true ->
  handleSendMessage is_space user now win w = (Ret win, w).
Proof.
  intros H. unfold handleSendMessage. rewrite trim_empty_iff, H. reflexivity.
Qed.

Lemma handleSendMessage_blank_witness :
  handleSendMessage ascii_space (Some "alice") 300 (mkWindow "  " true) alice_ready
  = (Ret (mkWindow "  " true), alice_ready).
Proof.
  apply (@handleSendMessage_blank ascii_space (Some "alice") 300 (mkWindow "  " true)
           alice_ready).
  reflexivity.
Defined.

(** X14. Submitting a text while there is no signed-in user or no room
    (the initialisation has failed) sends nothing and reports nothing, and
    yet the input is emptied: [sendMessage] returns at its guard, and the
    handler goes on as after a send that succeeded. *)
Theorem handleSendMessage_unsent_cleared (is_space : Ascii.ascii -> bool)
    (user : option UserId) (now : Time) (win : ChatWindowState) (w : World) :
  blank is_space (cw_message win) = false ->
  user = None \/ room (session w) = None ->
  handleSendMessage is_space user now win w = (Ret (mkWindow "" false), w).
Proof.
  intros Hb Hg. unfold handleSendMessage. rewrite trim_empty_iff, Hb.
  unfold try_catch, bind, sendMessage, setTyping.
  destruct Hg as [->|Hr].
  - destruct (room (session w)) eqn:E; unfold ret; simpl; rewrite ?E; reflexivity.
  - rewrite Hr. unfold ret. simpl. rewrite Hr. reflexivity.
Qed.

Lemma handleSendMessage_unsent_cleared_witness :
  handleSendMessage ascii_space (Some "alice") 300 (mkWindow "hello" true)
    (world_after (initializeChat "alice" "bob" 200) (initial_world blocked_db))
  = (Ret (mkWindow "" false),
     world_after (initializeChat "alice" "bob" 200) (initial_world blocked_db)).
Proof.
  apply (@handleSendMessage_unsent_cleared ascii_space (Some "alice") 300
           (mkWindow "hello" true)
           (world_after (initializeChat "alice" "bob" 200) (initial_world blocked_db))).
  - reflexivity.
  - right. reflexivity.
Defined.

(** X15. When the insert of a submitted text fails, the handler raises
    nothing and resets neither the text of the input nor its typing flag;
    the error is logged twice under the label of the send, by [sendMessage]
    and again by the handler; and the handler writes no message and no
    room. *)
Theorem handleSendMessage_failure_keeps_input (is_space : Ascii.ascii -> bool)
    (u : UserId) (now : Time) (win : ChatWindowState) (w : World) (r : ChatRoom)
    (e : PgError) (rest : list (option PgError)) :
  blank is_space (cw_message win) = false ->
  room (session w) = Some r ->
  net w = Some e :: rest ->
  exists w',
    handleSendMessage is_space (Some u) now win w = (Ret win, w')
    /\ chat_messages (db w') = chat_messages (db w)
    /\ chat_rooms (db w') = chat_rooms (db w)
    /\ filter (fun line => String.eqb (fst line) "Error sending message:") (console w')
       = ("Error sending message:", PgErr e)
         :: ("Error sending message:", PgErr e)
         :: filter (fun line => String.eqb (fst line) "Error sending message:")
              (console w).
Proof.
  intros Hb Hr Hn. unfold handleSendMessage. rewrite trim_empty_iff, Hb.
  destruct w as [d n c s t [ro ms ty lo]]. simpl in *. subst ro n.
  unfold try_catch, bind, sendMessage. simpl.
  unfold try_catch, bind, setMessages, request. simpl.
  eexists. split; [reflexivity|]. simpl. auto.
Qed.

Lemma handleSendMessage_failure_keeps_input_witness :
  fst (handleSendMessage ascii_space (Some "alice") 300 (mkWindow "hello" true)
         (set_net [Some NetworkError] alice_ready))
  = Ret (mkWindow "hello" true).
Proof.
  destruct (@handleSendMessage_failure_keeps_input ascii_space "alice" 300
              (mkWindow "hello" true) (set_net [Some NetworkError] alice_ready)
              (mkRoom 0%nat "alice" "bob" 100) NetworkError [])
    as (w' & E & _); [reflexivity | reflexivity | reflexivity |].
  exact (f_equal fst E).
Defined.

(** X16. When the insert of a submitted text succeeds, the store holds a
    new row with the text exactly as typed (white space at its ends
    included), the input is emptied and the typing flag reset; and when the
    typing request that follows reaches the store as well, no typing row of
    the user is left for the room. *)
Theorem handleSendMessage_success (is_space : Ascii.ascii -> bool) (u : UserId)
    (now : Time) (win : ChatWindowState) (w : World) (r : ChatRoom) :
  blank is_space (cw_message win) = false ->
  room (session w) = Some r ->
  in_own_room u (db w) (r_id r) = true ->
  all_arrive (net w) ->
  exists w',
    handleSendMessage is_space (Some u) now win w = (Ret (mkWindow "" false), w')
    /\ chat_messages (db w')
       = chat_messages (db w)
         ++ [mkMsg (Some (next_uuid (db w))) (r_id r) u (cw_message win) now None None]
    /\ (forall t, In t (typing_indicators (db w')) -> typing_key t <> (r_id r, u)).
Proof.
  intros Hb Hr Hown Hnet. unfold handleSendMessage. rewrite trim_empty_iff, Hb.
  unfold try_catch at 1. unfold bind at 1.
  rewrite (sendMessage_success u (cw_message win) now w Hr (all_arrive_next w Hnet) Hown).
  set (w1 := set_db _ _).
  assert (Hr1 : room (session w1) = Some r) by exact Hr.
  assert (Hn1 : next_request_arrives w1)
    by (apply all_arrive_next; simpl; apply all_arrive_tl; exact Hnet).
  unfold bind.
  unfold setTyping. rewrite Hr1. unfold try_catch, bind.
  rewrite request_arrives by exact Hn1. simpl.
  eexists. split; [reflexivity|]. simpl. split; [reflexivity|].
  intros t Hin Hk. apply filter_In in Hin. destruct Hin as [_ Hkeep].
  unfold typing_key in Hk. injection Hk as Hrid Hu.
  unfold rls_typing in Hkeep.
  rewrite Hrid, Hu, String.eqb_refl, Nat.eqb_refl in Hkeep. discriminate.
Qed.

Lemma handleSendMessage_success_witness :
  exists w',
    handleSendMessage ascii_space (Some "alice") 300 (mkWindow " hello " true) alice_ready
    = (Ret (mkWindow "" false), w')
    /\ chat_messages (db w')
       = [confirmed_hi; mkMsg (Some 2%nat) 0%nat "alice" " hello " 300 None None].
Proof.
  destruct (@handleSendMessage_success ascii_space "alice" 300 (mkWindow " hello " true)
              alice_ready (mkRoom 0%nat "alice" "bob" 100))
    as (w' & E & Hm & _); [reflexivity | reflexivity | reflexivity | constructor |].
  exists w'. split; [exact E | exact Hm].
Defined.

(** ** The list of chats *)

Section SortDescFacts.
Variable A : Type.
Variable key : A -> Time.

Lemma insert_desc_perm (x : A) (l : list A) :
  Permutation (insert_desc key x l) (x :: l).
Proof.
  induction l as [|y l IH]; simpl; [apply Permutation_refl|].
  destruct (key y <=? key x); [apply Permutation_refl|].
  rewrite perm_swap. apply perm_skip. exact IH.
Qed.

Lemma sort_desc_perm (l : list A) : Permutation (sort_desc key l) l.
Proof.
  induction l as [|x l IH]; simpl; [constructor|].
  rewrite insert_desc_perm. apply perm_skip. exact IH.
Qed.

Lemma insert_desc_sorted (x : A) (l : list A) :
  StronglySorted (fun a b => key b <= key a) l ->
  StronglySorted (fun a b => key b <= key a) (insert_desc key x l).
Proof.
  induction 1 as [|y l Hs IH Hall]; simpl.
  - constructor; constructor.
  - destruct (key y <=? key x) eqn:E.
    + apply Z.leb_le in E. constructor.
      * constructor; assumption.
      * constructor; [exact E|].
        eapply Forall_impl; [|exact Hall]. simpl. intros z Hz. lia.
    + apply Z.leb_gt in E. constructor; [exact IH|].
      eapply Permutation_Forall; [symmetry; apply insert_desc_perm|].
      constructor; [lia | exact Hall].
Qed.

Lemma sort_desc_sorted (l : list A) :
  StronglySorted (fun a b => key b <= key a) (sort_desc key l).
Proof.
  induction l as [|x l IH]; simpl; [constructor|].
  apply insert_desc_sorted. exact IH.
Qed.

Lemma insert_desc_ties (t : Time) (x : A) (l : list A) :
  filter (fun a => key a =? t) (insert_desc key x l)
  = filter (fun a => key a =? t) (x :: l).
Proof.
  induction l as [|y l IH]; [reflexivity|].
  simpl insert_desc. destruct (key y <=? key x) eqn:E; [reflexivity|].
  apply Z.leb_gt in E. simpl in *.
  destruct (key y =? t) eqn:Ey, (key x =? t) eqn:Ex;
    rewrite IH; try reflexivity.
  apply Z.eqb_eq in Ey. apply Z.eqb_eq in Ex. lia.
Qed.

Lemma sort_desc_ties (t : Time) (l : list A) :
  filter (fun a => key a =? t) (sort_desc key l) = filter (fun a => key a =? t) l.
Proof.
  induction l as [|x l IH]; [reflexivity|].
  simpl sort_desc. rewrite insert_desc_ties. simpl. rewrite IH. reflexivity.
Qed.
End SortDescFacts.

(** X17. When both room queries succeed, the list of chats holds exactly
    the rows of the two responses, the latest activity first, rows with the
    same time in the order in which they came (those where the user is the
    first participant before those where the user is the second), and the
    list is no longer loading. *)
Theorem loadChatRooms_merges_latest_first (data data2 : list InboxRoom) (s : InboxState) :
  StronglySorted (fun a b => i_last_message_at b <= i_last_message_at a)
                 (in_rooms (loadChatRooms (inl data) (inl data2) s))
  /\ Permutation (in_rooms (loadChatRooms (inl data) (inl data2) s)) (data ++ data2)
  /\ (forall t,
         filter (fun a => i_last_message_at a =? t)
                (in_rooms (loadChatRooms (inl data) (inl data2) s))
         = filter (fun a => i_last_message_at a =? t) (data ++ data2))
  /\ in_loading (loadChatRooms (inl data) (inl data2) s) = false.
Proof.
  simpl. split; [apply sort_desc_sorted|]. split; [apply sort_desc_perm|].
  split; [intros t; apply sort_desc_ties | reflexivity].
Qed.

(** ** Phone numbers *)

Lemma chars_append (a b : string) :
  list_ascii_of_string (String.append a b)
  = list_ascii_of_string a ++ list_ascii_of_string b.
Proof. induction a as [|c a IH]; simpl; [reflexivity|]. rewrite IH. reflexivity. Qed.

Lemma length_of_chars (l : list Ascii.ascii) :
  String.length (string_of_list_ascii l) = List.length l.
Proof. induction l as [|c l IH]; simpl; [reflexivity|]. rewrite IH. reflexivity. Qed.

Lemma chars_inj (a b : string) :
  list_ascii_of_string a = list_ascii_of_string b -> a = b.
Proof.
  intros H. rewrite <- (string_of_list_ascii_of_string a),
    <- (string_of_list_ascii_of_string b), H. reflexivity.
Qed.

Lemma formatPhoneNumber_chars (value : string) :
  value <> "" ->
  list_ascii_of_string (formatPhoneNumber value) = format_chars (digits_of value).
Proof.
  intros Hne. unfold formatPhoneNumber, format_chars, normalizePhoneNumber, slice, slice_from.
  apply String.eqb_neq in Hne. rewrite Hne.
  rewrite length_of_chars.
  destruct (List.length (digits_of value) <=? 3)%nat;
    [|destruct (List.length (digits_of value) <=? 6)%nat];
    rewrite ?chars_append, ?list_ascii_of_string_of_list_ascii; reflexivity.
Qed.

Lemma firstn_add (A : Type) (a b : nat) (l : list A) :
  firstn (a + b) l = firstn a l ++ firstn b (skipn a l).
Proof.
  revert l. induction a as [|a IH]; intros l; [reflexivity|].
  destruct l as [|x l]; simpl; [rewrite firstn_nil; reflexivity|].
  rewrite IH. reflexivity.
Qed.

Lemma forallb_firstn (A : Type) (p : A -> bool) (n : nat) (l : list A) :
  forallb p l = true -> forallb p (firstn n l) = true.
Proof.
  revert l. induction n as [|n IH]; intros l H; [reflexivity|].
  destruct l as [|x l]; [reflexivity|]. simpl in *.
  apply andb_true_iff in H. destruct H as [Hx Hl]. rewrite Hx. simpl. apply IH. exact Hl.
Qed.

Lemma forallb_skipn (A : Type) (p : A -> bool) (n : nat) (l : list A) :
  forallb p l = true -> forallb p (skipn n l) = true.
Proof.
  revert l. induction n as [|n IH]; intros l H; [exact H|].
  destruct l as [|x l]; [reflexivity|]. simpl in *.
  apply andb_true_iff in H. apply IH. tauto.
Qed.

Lemma digits_of_digits (value : string) : forallb is_digit (digits_of value) = true.
Proof. unfold digits_of. apply forallb_filter. Qed.

(** A formatted number shows the first ten digits and no other digit. *)
Lemma format_chars_digits (d : list Ascii.ascii) :
  forallb is_digit d = true -> filter is_digit (format_chars d) = firstn 10 d.
Proof.
  intros Hd. unfold format_chars.
  assert (Hf : forall n, filter is_digit (firstn n d) = firstn n d)
    by (intros n; apply forallb_filter_id, forallb_firstn; exact Hd).
  assert (Hfs : forall n m, filter is_digit (firstn n (skipn m d)) = firstn n (skipn m d))
    by (intros n m; apply forallb_filter_id, forallb_firstn, forallb_skipn; exact Hd).
  assert (Hs : forall m, filter is_digit (skipn m d) = skipn m d)
    by (intros m; apply forallb_filter_id, forallb_skipn; exact Hd).
  assert (P1 : filter is_digit (list_ascii_of_string "(") = []) by reflexivity.
  assert (P2 : filter is_digit (list_ascii_of_string ") ") = []) by reflexivity.
  assert (P3 : filter is_digit (list_ascii_of_string " ") = []) by reflexivity.
  destruct (List.length d <=? 3)%nat eqn:E3; [|destruct (List.length d <=? 6)%nat eqn:E6].
  - apply Nat.leb_le in E3. rewrite filter_app, P1, app_nil_l.
    rewrite (forallb_filter_id _ _ Hd), firstn_all2; [reflexivity | lia].
  - apply Nat.leb_le in E6. rewrite !filter_app, Hf, Hs, P1, P2, !app_nil_l.
    rewrite firstn_skipn, firstn_all2; [reflexivity | lia].
  - rewrite !filter_app, Hf, !Hfs, P1, P2, P3, !app_nil_l.
    change 10%nat with (3 + (3 + 4))%nat.
    rewrite firstn_add. f_equal.
    rewrite firstn_add. f_equal.
    rewrite skipn_skipn. reflexivity.
Qed.

Lemma format_chars_first_ten (d : list Ascii.ascii) :
  format_chars (firstn 10 d) = format_chars d.
Proof.
  destruct (Nat.le_gt_cases (List.length d) 10) as [Hle|Hgt].
  - rewrite firstn_all2; [reflexivity | exact Hle].
  - unfold format_chars. rewrite length_firstn.
    replace (Nat.min 10 (List.length d)) with 10%nat by lia.
    assert (E3 : (List.length d <=? 3)%nat = false) by (apply Nat.leb_gt; lia).
    assert (E6 : (List.length d <=? 6)%nat = false) by (apply Nat.leb_gt; lia).
    rewrite E3, E6. simpl Nat.leb.
    rewrite firstn_firstn. simpl Nat.min.
    rewrite !skipn_firstn_comm. simpl Nat.sub.
    rewrite !firstn_firstn. reflexivity.
Qed.

Lemma format_chars_length (d : list Ascii.ascii) :
  (List.length (format_chars d) <= 14)%nat.
Proof.
  unfold format_chars.
  destruct (List.length d <=? 3)%nat eqn:E3; [|destruct (List.length d <=? 6)%nat eqn:E6].
  - apply Nat.leb_le in E3. rewrite length_app.
    change (List.length (list_ascii_of_string "(")) with 1%nat. lia.
  - apply Nat.leb_le in E6.
    rewrite !length_app, length_firstn, length_skipn.
    change (List.length (list_ascii_of_string "(")) with 1%nat.
    change (List.length (list_ascii_of_string ") ")) with 2%nat. lia.
  - rewrite !length_app, !length_firstn.
    change (List.length (list_ascii_of_string "(")) with 1%nat.
    change (List.length (list_ascii_of_string ") ")) with 2%nat.
    change (List.length (list_ascii_of_string " ")) with 1%nat. lia.
Qed.

Lemma digits_of_format (value : string) :
  digits_of (formatPhoneNumber value) = firstn 10 (digits_of value).
Proof.
  destruct (String.eqb value "") eqn:E.
  - apply String.eqb_eq in E. subst. reflexivity.
  - apply String.eqb_neq in E. unfold digits_of at 1.
    rewrite (formatPhoneNumber_chars E).
    apply format_chars_digits, digits_of_digits.
Qed.

(** X18. Formatting a phone number and normalising it again gives the
    first ten digits of the input and nothing else. So a number that is
    stored as at most ten digits comes back unchanged from the form that
    shows it formatted. *)
Theorem normalize_format_round_trip (value : string) :
  normalizePhoneNumber (formatPhoneNumber value)
  = string_of_list_ascii (firstn 10 (digits_of value))
  /\ (forallb is_digit (list_ascii_of_string value) = true ->
      (String.length value <= 10)%nat ->
      normalizePhoneNumber (formatPhoneNumber value) = value).
Proof.
  unfold normalizePhoneNumber. rewrite digits_of_format. split; [reflexivity|].
  intros Hd Hlen. unfold digits_of. rewrite (forallb_filter_id _ _ Hd).
  rewrite firstn_all2.
  - apply string_of_list_ascii_of_string.
  - rewrite <- (string_of_list_ascii_of_string value), length_of_chars in Hlen.
    exact Hlen.
Qed.

Lemma normalize_format_round_trip_witness :
  normalizePhoneNumber (formatPhoneNumber "5551234567") = "5551234567".
Proof.
  apply (proj2 (normalize_format_round_trip "5551234567")).
  - reflexivity.
  - vm_compute. repeat constructor.
Defined.

(** X19. Formatting a formatted phone number changes nothing: the handler
    of the input, which formats the text of the field at every change, can
    run on its own output. *)
Theorem formatPhoneNumber_idempotent (value : string) :
  formatPhoneNumber (formatPhoneNumber value) = formatPhoneNumber value.
Proof.
  destruct (String.eqb value "") eqn:E.
  - apply String.eqb_eq in E. subst. reflexivity.
  - apply String.eqb_neq in E. apply chars_inj.
    assert (Hne : formatPhoneNumber value <> "").
    { intro H. pose proof (formatPhoneNumber_chars E) as Hc. rewrite H in Hc.
      unfold format_chars in Hc.
      destruct (List.length (digits_of value) <=? 3)%nat;
        [|destruct (List.length (digits_of value) <=? 6)%nat]; discriminate. }
    rewrite (formatPhoneNumber_chars Hne), digits_of_format, format_chars_first_ten.
    symmetry. apply formatPhoneNumber_chars. exact E.
Qed.

(** X20. A formatted phone number has at most fourteen characters; it is
    empty only for the empty input, and an input without any digit is
    shown as a lone opening parenthesis. *)
Theorem formatPhoneNumber_shape (value : string) :
  (String.length (formatPhoneNumber value) <= 14)%nat
  /\ (formatPhoneNumber value = "" <-> value = "")
  /\ (value <> "" -> digits_of value = [] -> formatPhoneNumber value = "(").
Proof.
  destruct (String.eqb value "") eqn:E.
  - apply String.eqb_eq in E. subst. simpl. repeat split; auto; try lia.
    intros H. contradiction.
  - apply String.eqb_neq in E.
    pose proof (formatPhoneNumber_chars E) as Hc.
    split; [|split].
    + rewrite <- (string_of_list_ascii_of_string (formatPhoneNumber value)),
        length_of_chars, Hc.
      apply format_chars_length.
    + split; [|intros H; contradiction].
      intros H. rewrite H in Hc. unfold format_chars in Hc.
      destruct (List.length (digits_of value) <=? 3)%nat;
        [|destruct (List.length (digits_of value) <=? 6)%nat]; discriminate.
    + intros _ Hd. apply chars_inj. rewrite Hc, Hd. reflexivity.
Qed.

Lemma formatPhoneNumber_shape_witness : formatPhoneNumber "abc" = "(".
Proof.
  apply (proj2 (proj2 (formatPhoneNumber_shape "abc"))).
  - discriminate.
  - reflexivity.
Defined.

(** ** More on the session *)

Lemma initializeChat_success_subs (u o : UserId) (now : Time) (w w' : World)
    (cl : Cleanup) :
  initializeChat u o now w = (Ret (Some cl), w') ->
  exists rid, cl = [MessagesChannel rid; TypingChannel rid] /\ subs w' = subs w ++ cl.
Proof.
  unfold initializeChat, try_catch, bind.
  pose proof (keeps_resolveRoom u o now w) as Hk.
  destruct (resolveRoom u o now w) as [[r|e] w1]; [|discriminate].
  simpl in Hk. unfold client_side in Hk. injection Hk as _ Hs _ _.
  unfold setRoom at 1. cbv beta iota zeta.
  match goal with
  | |- context [request ?op ?w0] =>
      destruct (request_cases op w0) as [[e ->]| ->]
  end; simpl; [discriminate|].
  intros H. injection H as <- <-. simpl.
  exists (r_id r). split; [reflexivity|]. rewrite Hs, <- app_assoc. reflexivity.
Qed.

Lemma filter_keeps_all (A : Type) (f : A -> bool) (l : list A) :
  (forall x, In x l -> f x = true) -> filter f l = l.
Proof.
  induction l as [|x l IH]; simpl; intros H; [reflexivity|].
  rewrite (H x (or_introl eq_refl)). f_equal. apply IH.
  intros y Hy. apply H. right. exact Hy.
Qed.

Lemma channel_neqb (a b : Channel) : a <> b -> negb (channel_eqb a b) = true.
Proof.
  intros H. apply negb_true_iff. destruct (channel_eqb a b) eqn:E; [|reflexivity].
  apply channel_eqb_eq in E. contradiction.
Qed.

(** X21. The function [initializeChat] returns undoes its subscriptions:
    run after a successful initialisation, it leaves the subscriptions as
    they were before the chat was opened, provided the two channels of the
    room were not subscribed by then. *)
Theorem cleanup_undoes_subscriptions (u o : UserId) (now : Time) (w w' : World)
    (cl : Cleanup) :
  initializeChat u o now w = (Ret (Some cl), w') ->
  (forall ch, In ch cl -> ~ In ch (subs w)) ->
  subs (world_after (run_cleanup cl) w') = subs w.
Proof.
  intros Hinit Hfresh.
  destruct (initializeChat_success_subs u o now w Hinit) as (rid & -> & Hs).
  assert (E : subs (world_after (run_cleanup [MessagesChannel rid; TypingChannel rid]) w')
              = filter (fun c' => negb (channel_eqb (TypingChannel rid) c'))
                  (filter (fun c' => negb (channel_eqb (MessagesChannel rid) c'))
                     (subs w')))
    by reflexivity.
  assert (F1 : filter (fun c' => negb (channel_eqb (MessagesChannel rid) c'))
                 [MessagesChannel rid; TypingChannel rid] = [TypingChannel rid])
    by (simpl; rewrite Nat.eqb_refl; reflexivity).
  assert (F2 : filter (fun c' => negb (channel_eqb (TypingChannel rid) c'))
                 [TypingChannel rid] = [])
    by (simpl; rewrite Nat.eqb_refl; reflexivity).
  assert (K1 : filter (fun c' => negb (channel_eqb (MessagesChannel rid) c')) (subs w)
               = subs w).
  { apply filter_keeps_all. intros x Hx. apply channel_neqb.
    intro Ex. subst x. apply (Hfresh (MessagesChannel rid)); simpl; auto. }
  assert (K2 : filter (fun c' => negb (channel_eqb (TypingChannel rid) c')) (subs w)
               = subs w).
  { apply filter_keeps_all. intros x Hx. apply channel_neqb.
    intro Ex. subst x. apply (Hfresh (TypingChannel rid)); simpl; auto. }
  rewrite E, Hs, filter_app, K1, F1, filter_app, K2, F2. apply app_nil_r.
Qed.

Lemma cleanup_undoes_subscriptions_witness :
  subs (world_after (run_cleanup [MessagesChannel 0%nat; TypingChannel 0%nat]) alice_fresh)
  = [].
Proof.
  apply (@cleanup_undoes_subscriptions "alice" "bob" 100 (initial_world empty_db)
           alice_fresh [MessagesChannel 0%nat; TypingChannel 0%nat]).
  - reflexivity.
  - intros ch _ H. exact H.
Defined.

(** X22. A message its sender has deleted stays in the history of the
    room, for every participant, with its content and with [deleted_at]
    set to the time of the call. *)
Theorem deleted_message_stays_in_history (u v : UserId) (messageId : MsgId)
    (now : Time) (w : World) (m : ChatMessage) :
  In m (chat_messages (db w)) -> has_id messageId m = true -> m_sender_id m = u ->
  next_request_arrives w ->
  in_own_room v (db w) (m_room_id m) = true ->
  In (set_deleted_at now m)
     (select_messages v (m_room_id m)
        (db (world_after (deleteMessage (Some u) messageId now) w))).
Proof.
  intros Hin Hid Hs Hn Hv. unfold world_after, deleteMessage.
  destruct (update_request u
              (fun m => has_id messageId m && String.eqb (m_sender_id m) u)
              (set_deleted_at now) "Error deleting message:" w)
    as (w' & E & _ & _ & Harr).
  rewrite E. simpl. rewrite (Harr Hn).
  unfold select_messages.
  eapply Permutation_in; [symmetry; apply order_by_perm|].
  apply filter_In. split.
  - apply update_marks_in.
    + intros x. reflexivity.
    + exact Hin.
    + rewrite Hid, Hs. simpl. apply String.eqb_refl.
    + unfold rls_update_using. rewrite Hs. apply String.eqb_refl.
  - unfold rls_select_message, in_own_room in *.
    rewrite (proj1 (update_messages_rooms _ _ _ _)). simpl.
    rewrite Hv. simpl. apply Nat.eqb_refl.
Qed.

Lemma deleted_message_stays_in_history_witness :
  In (mkMsg (Some 1%nat) 0%nat "alice" "hi" 150 None (Some 300))
     (select_messages "bob" 0%nat
        (db (world_after (deleteMessage (Some "alice") 1%nat 300) alice_ready))).
Proof.
  apply (@deleted_message_stays_in_history "alice" "bob" 1%nat 300 alice_ready confirmed_hi).
  - simpl. left. reflexivity.
  - reflexivity.
  - reflexivity.
  - exact I.
  - reflexivity.
Defined.


Lemma run_events_app (other : UserId) (a b : list (Time * RtEvent)) (w : World) :
  run_events other (a ++ b) w = run_events other b (run_events other a w).
Proof.
  revert w. induction a as [|[t ev] a IH]; intros w; [reflexivity|].
  simpl. apply IH.
Qed.

Lemma run_timers_subs (t : Time) (w : World) :
  subs (world_after (run_timers t) w) = subs w.
Proof.
  unfold world_after, run_timers.
  destruct (filter (fun due => due <=? t) (timers w)); reflexivity.
Qed.

Lemma deliver_subs (other : UserId) (t : Time) (ev : RtEvent) (w : World) :
  subs (world_after (deliver other t ev) w) = subs w.
Proof.
  unfold world_after, deliver. destruct ev as [row|rid [ti|]];
    destruct (existsb _ (subs w)); try reflexivity.
  unfold on_typing_event. destruct (String.eqb (t_user_id ti) other); reflexivity.
Qed.

Lemma run_events_subs (other : UserId) (trace : list (Time * RtEvent)) (w : World) :
  subs (run_events other trace w) = subs w.
Proof.
  revert w. induction trace as [|[t ev] rest IH]; intros w; [reflexivity|].
  simpl. rewrite IH, deliver_subs, run_timers_subs. reflexivity.
Qed.

Lemma run_timers_keeps_later (t d : Time) (w : World) :
  t < d -> In d (timers w) -> In d (timers (world_after (run_timers t) w)).
Proof.
  intros Hlt Hin. unfold world_after, run_timers.
  destruct (filter (fun due => due <=? t) (timers w)); [exact Hin|].
  simpl. apply filter_In. split; [exact Hin|].
  apply negb_true_iff. apply Z.leb_gt. exact Hlt.
Qed.

Lemma deliver_keeps_timers (other : UserId) (t d : Time) (ev : RtEvent) (w : World) :
  In d (timers w) -> In d (timers (world_after (deliver other t ev) w)).
Proof.
  intros Hin. unfold world_after, deliver. destruct ev as [row|rid [ti|]];
    destruct (existsb _ (subs w)); try exact Hin.
  unfold on_typing_event. destruct (String.eqb (t_user_id ti) other); [|exact Hin].
  simpl. apply in_or_app. left. exact Hin.
Qed.

Lemma run_events_keeps_later (other : UserId) (d : Time) (trace : list (Time * RtEvent))
    (w : World) :
  Forall (fun ev => fst ev < d) trace -> In d (timers w) ->
  In d (timers (run_events other trace w)).
Proof.
  revert w. induction trace as [|[t ev] rest IH]; intros w Htr Hin; [exact Hin|].
  inversion Htr as [|x l Hx Hl]; subst. simpl in *.
  apply IH; [exact Hl|].
  apply deliver_keeps_timers, run_timers_keeps_later; assumption.
Qed.

(** X23. The timers of the typing indicator are never cancelled, so the
    timer of an earlier event clears the indicator under later ones: three
    seconds after a typing event of the other user the indicator is off,
    even when further typing events of that user have arrived during these
    three seconds. *)
Theorem typing_indicator_cleared_by_first_timer (other : UserId) (rid : RoomId)
    (ti : TypingIndicator) (t t_obs : Time) (earlier later : list (Time * RtEvent))
    (w : World) :
  In (TypingChannel rid) (subs w) ->
  t_user_id ti = other ->
  Forall (fun ev => fst ev < t + 3000) later ->
  t + 3000 <= t_obs ->
  isOtherUserTyping
    (session
       (world_after (run_timers t_obs)
          (run_events other (earlier ++ (t, TypingChanged rid (Some ti)) :: later) w)))
  = false.
Proof.
  intros Hsub Hu Hlater Hobs.
  rewrite run_events_app. simpl run_events.
  set (w1 := world_after (run_timers t) (run_events other earlier w)).
  assert (Hsub1 : existsb (channel_eqb (TypingChannel rid)) (subs w1) = true).
  { apply existsb_exists. exists (TypingChannel rid). split.
    - unfold w1. rewrite run_timers_subs, run_events_subs. exact Hsub.
    - simpl. apply Nat.eqb_refl. }
  assert (Hin : In (t + 3000)
                   (timers (world_after (deliver other t (TypingChanged rid (Some ti))) w1))).
  { unfold world_after, deliver. rewrite Hsub1. unfold on_typing_event.
    rewrite Hu, String.eqb_refl. simpl. apply in_or_app. right. left. reflexivity. }
  pose proof (@run_events_keeps_later other (t + 3000) later _ Hlater Hin) as Hfin.
  set (w2 := run_events other later _) in *.
  unfold world_after, run_timers.
  destruct (filter (fun due => due <=? t_obs) (timers w2)) eqn:E; [|reflexivity].
  exfalso.
  assert (Hd : In (t + 3000) (filter (fun due => due <=? t_obs) (timers w2))).
  { apply filter_In. split; [exact Hfin|]. apply Z.leb_le. exact Hobs. }
  rewrite E in Hd. exact Hd.
Qed.

Lemma typing_indicator_cleared_by_first_timer_witness :
  isOtherUserTyping
    (session
       (world_after (run_timers 3000)
          (run_events "bob"
             ([] ++ (0, TypingChanged 0%nat (Some (mkTyping 0%nat "bob" 0)))
                 :: [(2900, TypingChanged 0%nat (Some (mkTyping 0%nat "bob" 2900)))])
             alice_fresh)))
  = false.
Proof.
  apply (@typing_indicator_cleared_by_first_timer "bob" 0%nat (mkTyping 0%nat "bob" 0)
           0 3000 [] [(2900, TypingChanged 0%nat (Some (mkTyping 0%nat "bob" 2900)))]
           alice_fresh).
  - simpl. right. left. reflexivity.
  - reflexivity.
  - constructor; [reflexivity | constructor].
  - discriminate.
Defined.

(** X24. Between two different users [markAsRead] has no effect at all:
    it asks for rows whose sender is the other user, and the only update
    policy of the table lets a caller change rows of which the caller is
    the sender. The call ends normally, and rooms, messages (their
    [read_at] included) and typing rows are as before. *)
Theorem markAsRead_between_users_is_void (u other : UserId) (messageId : MsgId)
    (now : Time) (w : World) :
  u <> other ->
  exists w',
    markAsRead (Some u) other messageId now w = (Ret tt, w')
    /\ client_side w' = client_side w
    /\ chat_rooms (db w') = chat_rooms (db w)
    /\ chat_messages (db w') = chat_messages (db w)
    /\ typing_indicators (db w') = typing_indicators (db w).
Proof.
  intros Hne.
  pose proof (markAsRead_of_other_changes_nothing messageId now w Hne) as Hm.
  unfold world_after in Hm. unfold markAsRead in *.
  destruct (update_request u
              (fun m => has_id messageId m && String.eqb (m_sender_id m) other)
              (set_read_at now) "Error marking message as read:" w)
    as (w' & E & Hc & _ & _).
  rewrite E in Hm. simpl in Hm. exists w'.
  split; [exact E|]. split; [exact Hc|].
  assert (Hrt : chat_rooms (db w') = chat_rooms (db w)
                /\ typing_indicators (db w') = typing_indicators (db w)).
  { unfold try_catch, bind in E.
    destruct (request_cases
                (update_messages u
                   (fun m => has_id messageId m && String.eqb (m_sender_id m) other)
                   (set_read_at now)) w) as [[e Hl]|Ha].
    - rewrite Hl in E. simpl in E. injection E as <-. split; reflexivity.
    - rewrite Ha in E. simpl in E. injection E as <-. simpl.
      apply update_messages_rooms. }
  tauto.
Qed.

Lemma markAsRead_between_users_is_void_witness :
  exists w',
    markAsRead (Some "bob") "alice" 1%nat 300 alice_ready = (Ret tt, w')
    /\ chat_messages (db w') = [confirmed_hi].
Proof.
  destruct (@markAsRead_between_users_is_void "bob" "alice" 1%nat 300 alice_ready)
    as (w' & E & _ & _ & Hm & _); [discriminate|].
  exists w'. split; [exact E | exact Hm].
Defined.
